(** * MedTranslation: the versioned term store and the translation validator

    A shallow embedding of [data/dictionaries/medical_dictionary.py] and
    [medical_translation/translation_validator.py], with the properties of the
    store, of its fuzzy lookup and of the validator stated over it.

    - [Py]: the Python values the code works on (text, binary64 numbers,
      exceptions) and the interface of the built-ins it calls.
    - [MedicalDictionary]: the store and its operations.
    - [TranslationValidator]: the validator.
    - [CPython]: one executable instance of the built-ins, used to run the
      code on concrete inputs. *)

From Stdlib Require Import ZArith NArith List Bool Lia String Ascii.
From Stdlib Require Import Sorted Permutation Floats.SpecFloat.
Import ListNotations.

(* ================================================================== *)
(** ** Python values *)
(* ================================================================== *)

Module Py.

(** A [str] is a sequence of Unicode code points. *)
Definition codepoint := N.
Definition str := list codepoint.

Fixpoint eqb (a b : str) : bool :=
  match a, b with
  | [], [] => true
  | x :: a', y :: b' => N.eqb x y && eqb a' b'
  | _, _ => false
  end.

(** [c in s] for a one-character [c]. *)
Definition mem (c : codepoint) (s : str) : bool := existsb (N.eqb c) s.

(** Text literals are written in UTF-8 and decoded to code points. *)
Fixpoint utf8 (bs : list N) : str :=
  match bs with
  | [] => []
  | b :: r =>
      if (b <? 0x80)%N then b :: utf8 r
      else if (b <? 0xE0)%N then
        match r with
        | c1 :: r1 => ((b - 0xC0) * 64 + (c1 - 0x80))%N :: utf8 r1
        | _ => []
        end
      else if (b <? 0xF0)%N then
        match r with
        | c1 :: c2 :: r2 =>
            ((b - 0xE0) * 4096 + (c1 - 0x80) * 64 + (c2 - 0x80))%N :: utf8 r2
        | _ => []
        end
      else
        match r with
        | c1 :: c2 :: c3 :: r3 =>
            ((b - 0xF0) * 262144 + (c1 - 0x80) * 4096
             + (c2 - 0x80) * 64 + (c3 - 0x80))%N :: utf8 r3
        | _ => []
        end
  end.

Definition u (s : string) : str :=
  utf8 (map N_of_ascii (list_ascii_of_string s)).

(** The code points for which [str.isspace] holds; [str.strip] and the
    regular-expression class [\s] use the same set. *)
Definition whitespace : list codepoint :=
  [0x09; 0x0A; 0x0B; 0x0C; 0x0D; 0x1C; 0x1D; 0x1E; 0x1F; 0x20; 0x85; 0xA0;
   0x1680; 0x2000; 0x2001; 0x2002; 0x2003; 0x2004; 0x2005; 0x2006; 0x2007;
   0x2008; 0x2009; 0x200A; 0x2028; 0x2029; 0x202F; 0x205F; 0x3000]%N.

Definition isspace (c : codepoint) : bool := mem c whitespace.

Fixpoint lstrip (s : str) : str :=
  match s with
  | c :: s' => if isspace c then lstrip s' else s
  | [] => []
  end.

Definition rstrip (s : str) : str := rev (lstrip (rev s)).

(** [s.strip()] *)
Definition strip (s : str) : str := rstrip (lstrip s).

(** [sub in s] for a two-character [sub = c1 c2]. *)
Fixpoint contains2 (c1 c2 : codepoint) (s : str) : bool :=
  match s with
  | x :: ((y :: _) as s') => (N.eqb x c1 && N.eqb y c2) || contains2 c1 c2 s'
  | _ => false
  end.

(** A [float] is an IEEE 754 binary64 number. *)
Definition float := spec_float.
Definition prec : Z := 53.
Definition emax : Z := 1024.

Definition fmul : float -> float -> float := SFmul prec emax.
Definition fdiv : float -> float -> float := SFdiv prec emax.
(** [x < y] *)
Definition flt : float -> float -> bool := SFltb.
(** [float(n)] for an [int] of at most 53 bits. *)
Definition of_int (n : Z) : float := binary_normalize prec emax n 0 false.
(** The literal [n/10^k] written in decimal: the nearest binary64. *)
Definition decimal (n : Z) (k : nat) : float :=
  fdiv (of_int n) (of_int (10 ^ Z.of_nat k)).

Definition is_nan (x : float) : bool :=
  match x with S754_nan => true | _ => false end.

(** Exceptions the embedded code can raise. *)
Inductive exn := KeyError | ValueError | TypeError | AttributeError.

Inductive result (A : Type) :=
| Ok (a : A)
| Raise (e : exn).
Arguments Ok {A} a.
Arguments Raise {A} e.

(** The built-ins and library calls of the code that are not its own:
    their results are whatever the interpreter gives. *)
Class Runtime := {
  (** [s.lower()] *)
  lower : str -> str;
  (** [float(s)] for a [str]; [None] when it raises [ValueError] *)
  float_of_str : str -> option float;
  (** [difflib.SequenceMatcher(None, a, b).ratio()] *)
  ratio : str -> str -> float;
  (** [datetime.now().isoformat()], by the number of earlier readings *)
  now : nat -> str;
}.

End Py.

(* ================================================================== *)
(** ** The term store: [MedicalDictionary] *)
(* ================================================================== *)

Module MedicalDictionary.
Import Py.

(** One element of a term's ["versions"] list. *)
Record VersionEntry := {
  ver_vietnamese : str;
  ver_confidence : float;
  ver_date : str;
  ver_source : str;
}.

(** The value stored for a term.  [category] is [None] when [import_csv]
    passes on the empty cell of a short line. *)
Record Term := {
  vietnamese : str;
  category : option str;
  source : str;
  confidence : float;
  added_date : str;
  last_updated : str;
  versions : list VersionEntry;
}.

(** [self.terms]: a [dict], which keeps its keys in insertion order. *)
Definition dict := list (str * Term).

Definition keys (d : dict) : list str := map fst d.

(** [d.get(k)] *)
Fixpoint dict_get (k : str) (d : dict) : option Term :=
  match d with
  | [] => None
  | (k', v) :: d' => if eqb k k' then Some v else dict_get k d'
  end.

(** [d[k] = v]: an existing key keeps its place, a new one goes last. *)
Fixpoint dict_set (k : str) (v : Term) (d : dict) : dict :=
  match d with
  | [] => [(k, v)]
  | (k', v') :: d' =>
      if eqb k k' then (k', v) :: d' else (k', v') :: dict_set k v d'
  end.

(** [k in d] *)
Definition dict_mem (k : str) (d : dict) : bool :=
  match dict_get k d with Some _ => true | None => false end.

(** The state the operations act on: the terms in memory and the number of
    clock readings made so far.  The file written by [_save_dictionary] and
    the log are not read back by any operation and are left out. *)
Record state := {
  terms : dict;
  time : nat;
}.

Definition M (A : Type) : Type := state -> A * state.

Definition ret {A} (a : A) : M A := fun s => (a, s).

Definition bind {A B} (m : M A) (k : A -> M B) : M B :=
  fun s => let (a, s') := m s in k a s'.

Notation "x <- m ;; k" := (bind m (fun x => k))
  (at level 61, m at next level, right associativity).
Notation "m ;;; k" := (bind m (fun _ => k))
  (at level 61, right associativity).

Definition get_terms : M dict := fun s => (terms s, s).

Definition set_terms (d : dict) : M unit :=
  fun s => (tt, {| terms := d; time := time s |}).

Section Operations.
Context {R : Runtime}.

(** [datetime.now().isoformat()] *)
Definition datetime_now : M str :=
  fun s => (now (time s), {| terms := terms s; time := S (time s) |}).

(** [_save_dictionary] writes the whole mapping to the file and logs; an
    error while writing is caught inside it. *)
Definition _save_dictionary : M unit := ret tt.

(** [english.lower().strip()] *)
Definition normalize (english : str) : str := strip (lower english).

(** [add_term].  An argument is [None] when the caller passes Python's
    [None] (as [import_csv] does for a missing cell): the method call on it
    raises [AttributeError], which the [except] turns into [False]. *)
Definition add_term (english vietnamese category : option str)
    (source : str) (confidence : float) : M bool :=
  match english with
  | None => ret false
  | Some english =>
      let english := strip (lower english) in
      match vietnamese with
      | None => ret false
      | Some vietnamese =>
          let vietnamese := strip vietnamese in
          t_added <- datetime_now ;;
          t_updated <- datetime_now ;;
          t_version <- datetime_now ;;
          let term_data :=
            {| vietnamese := vietnamese;
               category := category;
               source := source;
               confidence := confidence;
               added_date := t_added;
               last_updated := t_updated;
               versions :=
                 [ {| ver_vietnamese := vietnamese;
                      ver_confidence := confidence;
                      ver_date := t_version;
                      ver_source := source |} ] |} in
          d <- get_terms ;;
          set_terms (dict_set english term_data d) ;;;
          _save_dictionary ;;;
          ret true
      end
  end.

(** [update_term] *)
Definition update_term (english vietnamese : str)
    (source : str) (confidence : float) : M bool :=
  let english := strip (lower english) in
  let vietnamese := strip vietnamese in
  d <- get_terms ;;
  match dict_get english d with
  | None => ret false
  | Some term =>
      t_version <- datetime_now ;;
      let versions' :=
        versions term ++
          [ {| ver_vietnamese := vietnamese;
               ver_confidence := confidence;
               ver_date := t_version;
               ver_source := source |} ] in
      t_updated <- datetime_now ;;
      let term' :=
        {| vietnamese := vietnamese;
           category := category term;
           source := source;
           confidence := confidence;
           added_date := added_date term;
           last_updated := t_updated;
           versions := versions' |} in
      set_terms (dict_set english term' d) ;;;
      _save_dictionary ;;;
      ret true
  end.

(** [get_translation] *)
Definition get_translation (english : str) (d : dict) : option Term :=
  let english := strip (lower english) in
  dict_get english d.

(** The threshold [0.6]. *)
Definition threshold : float := decimal 6 1.

(** [sorted(matches, key=lambda x: x[1], reverse=True)].  The sort is
    stable: entries with equal scores keep the order they had.  For scores
    without NaN that fixes the result, computed here by insertion. *)
Fixpoint insert_desc (x : str * float) (l : list (str * float))
    : list (str * float) :=
  match l with
  | [] => [x]
  | y :: l' => if flt (snd x) (snd y) then y :: insert_desc x l' else x :: l
  end.

Fixpoint sorted_desc (l : list (str * float)) : list (str * float) :=
  match l with
  | [] => []
  | x :: l' => insert_desc x (sorted_desc l')
  end.

(** [l[:n]] *)
Definition slice_to {A} (n : Z) (l : list A) : list A :=
  if (0 <=? n)%Z then firstn (Z.to_nat n) l
  else firstn (List.length l - Z.to_nat (- n)) l.

(** The loop of [get_similar_terms] over [self.terms.keys()]. *)
Fixpoint matches (term : str) (ks : list str) : list (str * float) :=
  match ks with
  | [] => []
  | existing_term :: ks' =>
      let r := ratio term existing_term in
      if flt threshold r then (existing_term, r) :: matches term ks'
      else matches term ks'
  end.

(** [get_similar_terms] *)
Definition get_similar_terms (term : str) (n : Z) (d : dict)
    : list (str * float) :=
  let term := strip (lower term) in
  slice_to n (sorted_desc (matches term (keys d))).

(** A row as [csv.DictReader] yields it: a [dict] from the column names of
    the header to the cells of the line, [None] for a cell the line lacks. *)
Definition row := list (str * option str).

Fixpoint row_get (k : str) (r : row) : option (option str) :=
  match r with
  | [] => None
  | (k', c) :: r' => if eqb k k' then Some c else row_get k r'
  end.

(** The arguments [import_csv] builds for [add_term] from one row:
    [row['English']], [row['Vietnamese']], [row.get('Category', 'general')]
    and [float(row.get('Confidence', 1.0))]. *)
Definition row_args (r : row)
    : result (option str * option str * option str * float) :=
  match row_get (u "English") r with
  | None => Raise KeyError
  | Some english =>
      match row_get (u "Vietnamese") r with
      | None => Raise KeyError
      | Some vietnamese =>
          let category :=
            match row_get (u "Category") r with
            | None => Some (u "general")
            | Some c => c
            end in
          match row_get (u "Confidence") r with
          | None => Ok (english, vietnamese, category, of_int 1)
          | Some None => Raise TypeError
          | Some (Some c) =>
              match float_of_str c with
              | None => Raise ValueError
              | Some x => Ok (english, vietnamese, category, x)
              end
          end
      end
  end.

(** The [for row in reader] loop: an exception raised while the arguments
    are built leaves the loop. *)
Fixpoint import_rows (rows : list row) (source : str) : M (result unit) :=
  match rows with
  | [] => ret (Ok tt)
  | r :: rows' =>
      match row_args r with
      | Raise e => ret (Raise e)
      | Ok (english, vietnamese, category, confidence) =>
          add_term english vietnamese category source confidence ;;;
          import_rows rows' source
      end
  end.

(** [import_csv], for a file that opens and reads as [rows]: the [except]
    around the loop logs the exception and the call returns. *)
Definition import_csv (rows : list row) (source : str) : M unit :=
  import_rows rows source ;;;
  ret tt.

End Operations.

End MedicalDictionary.

(* ================================================================== *)
(** ** The validator: [TranslationValidator] *)
(* ================================================================== *)

Module TranslationValidator.
Import Py.

(** One element of ["similar_terms"]. *)
Record SimilarTerm := {
  st_english : str;
  st_vietnamese : str;
  st_similarity : float;
}.

(** The [dict] returned by [validate_translation]; [similar_terms] is [None]
    when the key is not set. *)
Record Results := {
  valid : bool;
  issues : list str;
  confidence : float;
  suggestions : list str;
  similar_terms : option (list SimilarTerm);
}.

(** [vietnamese_chars] of [_has_missing_diacritics]. *)
Definition vietnamese_chars : str :=
  u "àáảãạăắằẳẵặâấầẩẫậèéẻẽẹêếềểễệìíỉĩịòóỏõọôốồổỗộơớờởỡợùúủũụưứừửữựỳýỷỹỵđ".

(** The class of the pattern [[ăâđêôơư]]. *)
Definition base_letters : str := u "ăâđêôơư".

(** The letters listed in the pattern of [_check_formatting] after the
    three ranges. *)
Definition listed_letters : str :=
  u "àáảãạăắằẳẵặâấầẩẫậèéẻẽẹêếềểễệìíỉĩịòóỏõọôốồổỗộơớờởỡợùúủũụưứừửữựỳýỷỹỵđĐ".

Definition in_range (lo hi c : codepoint) : bool :=
  ((lo <=? c) && (c <=? hi))%N.

(** Membership in the class [a-zA-Z0-9...đĐ\s\-.,()] that the pattern of
    [_check_formatting] negates. *)
Definition allowed (c : codepoint) : bool :=
  in_range 0x61%N 0x7A%N c || in_range 0x41%N 0x5A%N c
  || in_range 0x30%N 0x39%N c
  || mem c listed_letters || isspace c || mem c (u "-.,()").

Section Validator.
Context {R : Runtime}.

(** [_has_missing_diacritics] *)
Definition _has_missing_diacritics (text : str) : bool :=
  let text_lower := lower text in
  let has_vietnamese_words :=
    existsb (fun c => mem c base_letters) text_lower in
  let has_diacritics :=
    existsb (fun c => mem c text_lower) vietnamese_chars in
  has_vietnamese_words && negb has_diacritics.

(** [_check_formatting] *)
Definition _check_formatting (text : str) : bool :=
  match text with
  | [] => false
  | _ =>
      if negb (eqb text (strip text)) then false
      else if contains2 0x20%N 0x20%N text then false
      else if existsb (fun c => negb (allowed c)) text then false
      else true
  end.

(** The three statements of a failed diacritic or formatting check:
    [results["valid"] = False], [results["issues"].append(issue)],
    [results["confidence"] *= factor]. *)
Definition flag (issue : str) (factor : float) (r : Results) : Results :=
  {| valid := false;
     issues := issues r ++ [issue];
     confidence := fmul (confidence r) factor;
     suggestions := suggestions r;
     similar_terms := similar_terms r |}.

(** The comprehension that builds ["similar_terms"]: subscripting the
    [None] of a failed lookup raises [TypeError]. *)
Fixpoint similar_entries (l : list (str * float)) (d : MedicalDictionary.dict)
    : result (list SimilarTerm) :=
  match l with
  | [] => Ok []
  | (term, score) :: l' =>
      match MedicalDictionary.get_translation term d with
      | None => Raise TypeError
      | Some t =>
          match similar_entries l' d with
          | Raise e => Raise e
          | Ok es =>
              Ok ({| st_english := term;
                     st_vietnamese := MedicalDictionary.vietnamese t;
                     st_similarity := score |} :: es)
          end
      end
  end.

(** The state of [results] after the three checks. *)
Definition checks (english vietnamese : str) (d : MedicalDictionary.dict)
    : Results :=
  let results :=
    {| valid := true; issues := []; confidence := of_int 1;
       suggestions := []; similar_terms := None |} in
  let results :=
    match MedicalDictionary.get_translation english d with
    | Some existing =>
        if negb (eqb (lower (MedicalDictionary.vietnamese existing))
                     (lower vietnamese))
        then
          {| valid := false;
             issues := issues results
                       ++ [u "Translation differs from dictionary"];
             suggestions := suggestions results
                            ++ [MedicalDictionary.vietnamese existing];
             confidence := fmul (confidence results) (decimal 7 1);
             similar_terms := similar_terms results |}
        else results
    | None => results
    end in
  let results :=
    if _has_missing_diacritics vietnamese
    then flag (u "Missing diacritical marks") (decimal 8 1) results
    else results in
  let results :=
    if negb (_check_formatting vietnamese)
    then flag (u "Incorrect formatting") (decimal 9 1) results
    else results in
  results.

(** [validate_translation] *)
Definition validate_translation (english vietnamese : str)
    (d : MedicalDictionary.dict) : result Results :=
  let results := checks english vietnamese d in
  let similar := MedicalDictionary.get_similar_terms english 5 d in
  match similar with
  | [] => Ok results
  | _ :: _ =>
      match similar_entries similar d with
      | Raise e => Raise e
      | Ok es =>
          Ok {| valid := valid results;
                issues := issues results;
                confidence := confidence results;
                suggestions := suggestions results;
                similar_terms := Some es |}
      end
  end.

(** The lines [f"- {term}: {term_data['vietnamese']}"] of
    [suggest_improvements]. *)
Fixpoint related_lines (l : list (str * float)) (d : MedicalDictionary.dict)
    : result (list str) :=
  match l with
  | [] => Ok []
  | (term, _) :: l' =>
      match MedicalDictionary.get_translation term d with
      | None => Raise TypeError
      | Some term_data =>
          match related_lines l' d with
          | Raise e => Raise e
          | Ok ls =>
              Ok ((u "- " ++ term ++ u ": "
                   ++ MedicalDictionary.vietnamese term_data) :: ls)
          end
      end
  end.

(** [suggest_improvements] *)
Definition suggest_improvements (english vietnamese : str)
    (d : MedicalDictionary.dict) : result (list str) :=
  let suggestions := [] in
  let suggestions :=
    match MedicalDictionary.get_translation english d with
    | Some existing =>
        if negb (eqb (MedicalDictionary.vietnamese existing) vietnamese)
        then suggestions ++
               [u "Consider using established translation: "
                ++ MedicalDictionary.vietnamese existing]
        else suggestions
    | None => suggestions
    end in
  let suggestions :=
    if _has_missing_diacritics vietnamese
    then suggestions ++
           [u "Add appropriate diacritical marks to Vietnamese text"]
    else suggestions in
  let suggestions :=
    if negb (_check_formatting vietnamese)
    then suggestions ++
           [u "Fix formatting issues (whitespace, special characters)"]
    else suggestions in
  let similar := MedicalDictionary.get_similar_terms english 5 d in
  match similar with
  | [] => Ok suggestions
  | _ :: _ =>
      match related_lines (firstn 3 similar) d with
      | Raise e => Raise e
      | Ok ls =>
          Ok (suggestions ++ [u "Related terms for reference:"] ++ ls)
      end
  end.

End Validator.

End TranslationValidator.

(* ================================================================== *)
(** ** An executable instance of the built-ins *)
(* ================================================================== *)

(** [difflib.SequenceMatcher(None, a, b)], after CPython's [Lib/difflib.py]
    with its defaults ([isjunk=None], [autojunk=True]): no element is junk,
    and in a [b] of 200 elements or more those that make up more than 1% of
    it are "popular" and start no match. *)
Module Difflib.
Import Py.

Definition count (c : codepoint) (b : str) : nat :=
  List.length (filter (N.eqb c) b).

(** [elt in self.bpopular] *)
Definition popular (b : str) (elt : codepoint) : bool :=
  let n := List.length b in
  (200 <=? n) && (n / 100 + 1 <? count elt b).

(** [self.b2j.get(elt, [])]: the positions of [elt] in [b], ascending. *)
Definition b2j (b : str) (elt : codepoint) : list nat :=
  if popular b elt then []
  else filter (fun j => N.eqb (nth j b 0%N) elt) (seq 0 (List.length b)).

(** [j2len.get(j, 0)] *)
Fixpoint j2len_get (j2len : list (nat * nat)) (j : nat) : nat :=
  match j2len with
  | [] => 0
  | (j', k) :: r => if j =? j' then k else j2len_get r j
  end.

Record Match := { m_a : nat; m_b : nat; m_size : nat }.

(** The body of [for j in b2j.get(a[i], nothing)]; the state is
    [(newj2len, best)].  The positions come in ascending order, so the
    [break] at [j >= bhi] skips what the fold skips one by one. *)
Definition scan_j (i blo bhi : nat) (j2len : list (nat * nat))
    (st : list (nat * nat) * Match) (j : nat) : list (nat * nat) * Match :=
  let (newj2len, best) := st in
  if j <? blo then st
  else if bhi <=? j then st
  else
    let k := (match j with 0 => 0 | S j' => j2len_get j2len j' end) + 1 in
    let best' :=
      if m_size best <? k
      then {| m_a := i + 1 - k; m_b := j + 1 - k; m_size := k |}
      else best in
    ((j, k) :: newj2len, best').

(** The body of [for i in range(alo, ahi)]; the state is [(j2len, best)]. *)
Definition scan_i (a b : str) (blo bhi : nat)
    (st : list (nat * nat) * Match) (i : nat) : list (nat * nat) * Match :=
  let (j2len, best) := st in
  fold_left (scan_j i blo bhi j2len) (b2j b (nth i a 0%N)) ([], best).

(** The first [while]: grow the match to the left. *)
Fixpoint extend_left (a b : str) (alo blo : nat) (fuel : nat) (m : Match)
    : Match :=
  match fuel with
  | 0 => m
  | S fuel' =>
      if (alo <? m_a m) && (blo <? m_b m)
         && N.eqb (nth (m_a m - 1) a 0%N) (nth (m_b m - 1) b 0%N)
      then extend_left a b alo blo fuel'
             {| m_a := m_a m - 1; m_b := m_b m - 1; m_size := m_size m + 1 |}
      else m
  end.

(** The second [while]: grow the match to the right. *)
Fixpoint extend_right (a b : str) (ahi bhi : nat) (fuel : nat) (m : Match)
    : Match :=
  match fuel with
  | 0 => m
  | S fuel' =>
      if (m_a m + m_size m <? ahi) && (m_b m + m_size m <? bhi)
         && N.eqb (nth (m_a m + m_size m) a 0%N) (nth (m_b m + m_size m) b 0%N)
      then extend_right a b ahi bhi fuel'
             {| m_a := m_a m; m_b := m_b m; m_size := m_size m + 1 |}
      else m
  end.

(** [find_longest_match]; the two loops over junk do nothing, [bjunk] being
    empty. *)
Definition find_longest_match (a b : str) (alo ahi blo bhi : nat) : Match :=
  let best := {| m_a := alo; m_b := blo; m_size := 0 |} in
  let best := snd (fold_left (scan_i a b blo bhi) (seq alo (ahi - alo))
                             ([], best)) in
  let best := extend_left a b alo blo (m_a best) best in
  extend_right a b ahi bhi ahi best.

(** The sum of the sizes of the blocks [get_matching_blocks] collects: the
    longest match of the window, then those of the windows left and right
    of it.  Each window is shorter than the one it comes from. *)
Fixpoint matched (a b : str) (fuel : nat) (alo ahi blo bhi : nat) : nat :=
  match fuel with
  | 0 => 0
  | S fuel' =>
      let x := find_longest_match a b alo ahi blo bhi in
      let i := m_a x in
      let j := m_b x in
      let k := m_size x in
      if k =? 0 then 0
      else
        k
        + (if (alo <? i) && (blo <? j)
           then matched a b fuel' alo i blo j else 0)
        + (if (i + k <? ahi) && (j + k <? bhi)
           then matched a b fuel' (i + k) ahi (j + k) bhi else 0)
  end.

(** [_calculate_ratio] *)
Definition _calculate_ratio (matches length : nat) : float :=
  match length with
  | 0 => of_int 1
  | _ => fdiv (fmul (of_int 2) (of_int (Z.of_nat matches)))
              (of_int (Z.of_nat length))
  end.

(** [SequenceMatcher(None, a, b).ratio()] *)
Definition ratio (a b : str) : float :=
  let la := List.length a in
  let lb := List.length b in
  _calculate_ratio (matched a b (S la) 0 la 0 lb) (la + lb).

End Difflib.

Module CPython.
Import Py.

(** The capitals of Vietnamese in Latin Extended-A and B: Ă, Đ, Ĩ, Ũ, Ơ, Ư. *)
Definition capitals_outside_latin1 : list codepoint :=
  [0x102; 0x110; 0x128; 0x168; 0x1A0; 0x1AF]%N.

(** [str.lower] on the Basic Latin and Latin-1 blocks and on the capital
    letters of Vietnamese outside them; any other code point is kept. *)
Definition lower_cp (c : codepoint) : codepoint :=
  if ((0x41 <=? c) && (c <=? 0x5A))%N then (c + 32)%N
  else if ((0xC0 <=? c) && (c <=? 0xDE) && negb (c =? 0xD7))%N
  then (c + 32)%N
  else if mem c capitals_outside_latin1 then (c + 1)%N
  else if ((0x1EA0 <=? c) && (c <=? 0x1EF9) && N.even c)%N then (c + 1)%N
  else c.

Definition lower_latin (s : str) : str := map lower_cp s.

Definition is_digit (c : codepoint) : bool :=
  ((0x30 <=? c) && (c <=? 0x39))%N.

Definition digit_val (c : codepoint) : Z := Z.of_N (c - 0x30).

(** [digitpart ::= digit (["_"] digit)*]: the digits read and the rest. *)
Fixpoint digitpart (s : str) : list Z * str :=
  match s with
  | [] => ([], [])
  | c :: s' =>
      if is_digit c then
        match s' with
        | 0x5F%N :: ((c2 :: _) as s'') =>
            if is_digit c2
            then let (ds, r) := digitpart s'' in (digit_val c :: ds, r)
            else ([digit_val c], s')
        | _ => let (ds, r) := digitpart s' in (digit_val c :: ds, r)
        end
      else ([], s)
  end.

Definition digits_value (ds : list Z) : Z :=
  fold_left (fun acc d => (10 * acc + d)%Z) ds 0%Z.

(** The binary64 nearest to [p/q], for positive [p] and [q]: the quotient
    is taken with 66 bits or more and a sticky last bit, then rounded. *)
Definition round_ratio (p q : Z) : float :=
  let k := Z.max 0 (Z.log2 q - Z.log2 p + 66) in
  let n := (p * 2 ^ k)%Z in
  let mant := (2 * (n / q) + (if (n mod q =? 0)%Z then 0 else 1))%Z in
  binary_normalize prec emax mant (- (k + 1)) false.

(** The binary64 nearest to [m * 10^e], [m >= 0]. *)
Definition of_decimal (m e : Z) : float :=
  if (m =? 0)%Z then S754_zero false
  else if (0 <=? e)%Z then binary_normalize prec emax (m * 10 ^ e) 0 false
  else round_ratio m (10 ^ (- e)).

(** [exponent ::= ("e" | "E") ["+" | "-"] digitpart], or nothing, up to the
    end of the text. *)
Definition exponent (s : str) : option Z :=
  match s with
  | [] => Some 0%Z
  | c :: s' =>
      if (c =? 0x65)%N || (c =? 0x45)%N then
        let (neg, s'') :=
          match s' with
          | 0x2B%N :: t => (false, t)
          | 0x2D%N :: t => (true, t)
          | _ => (false, s')
          end in
        match digitpart s'' with
        | ((_ :: _) as ds, []) =>
            Some (if neg then (- digits_value ds)%Z else digits_value ds)
        | _ => None
        end
      else None
  end.

(** [floatnumber]: [[digitpart] "." digitpart | digitpart ["."]], then an
    optional exponent. *)
Definition floatnumber (s : str) : option float :=
  let (ip, r1) := digitpart s in
  let (fp, r2) :=
    match r1 with
    | 0x2E%N :: t => digitpart t
    | _ => ([], r1)
    end in
  match ip ++ fp with
  | [] => None
  | ds =>
      match exponent r2 with
      | None => None
      | Some e =>
          Some (of_decimal (digits_value ds) (e - Z.of_nat (List.length fp)))
      end
  end.

Definition ascii_lower (s : str) : str :=
  map (fun c => if ((0x41 <=? c) && (c <=? 0x5A))%N then (c + 32)%N else c) s.

(** [float(s)] for a [str]: surrounding whitespace is dropped, then
    [[sign] (floatnumber | "inf" | "infinity" | "nan")], letters in either
    case.  Digits other than the ASCII ones, which [float] also reads, are
    not recognised. *)
Definition float_of_str (s : str) : option float :=
  let s := strip s in
  let (neg, body) :=
    match s with
    | 0x2B%N :: t => (false, t)
    | 0x2D%N :: t => (true, t)
    | _ => (false, s)
    end in
  let v :=
    let w := ascii_lower body in
    if eqb w (u "inf") || eqb w (u "infinity") then Some (S754_infinity false)
    else if eqb w (u "nan") then Some S754_nan
    else floatnumber body in
  match v with
  | None => None
  | Some x => Some (if neg then SFopp x else x)
  end.

(** Six decimal digits of [k], the microseconds of a reading. *)
Definition micro (k : nat) : str :=
  map (fun p => (0x30 + N.of_nat ((k / 10 ^ p) mod 10))%N) [5; 4; 3; 2; 1; 0].

(** A clock that advances by one microsecond per reading; [isoformat]
    leaves out a fraction of zero microseconds. *)
Definition clock (k : nat) : str :=
  u "2024-05-01T09:30:00"
  ++ (if (N.of_nat k mod 1000000 =? 0)%N then [] else u "." ++ micro k).

Definition runtime : Runtime :=
  {| lower := lower_latin;
     Py.float_of_str := float_of_str;
     Py.ratio := Difflib.ratio;
     now := clock |}.

End CPython.

(* ================================================================== *)
(** ** Notions the properties are stated with *)
(* ================================================================== *)

Import Py.
Import MedicalDictionary.

Section Notions.
Context {R : Runtime}.

(** The version entry an operation appends when the clock has been read
    [n] times before the entry's date is taken. *)
Definition entry (vietnamese source : str) (confidence : float) (n : nat)
    : VersionEntry :=
  {| ver_vietnamese := strip vietnamese;
     ver_confidence := confidence;
     ver_date := now n;
     ver_source := source |}.

(** The record [add_term] builds when the clock has been read [n] times. *)
Definition fresh_term (vietnamese : str) (category : option str)
    (source : str) (confidence : float) (n : nat) : Term :=
  {| vietnamese := strip vietnamese;
     category := category;
     source := source;
     confidence := confidence;
     added_date := now n;
     last_updated := now (S n);
     versions := [entry vietnamese source confidence (S (S n))] |}.

(** The record [update_term] leaves in place of [t] when the clock has been
    read [n] times. *)
Definition updated_term (t : Term) (vietnamese source : str)
    (confidence : float) (n : nat) : Term :=
  {| vietnamese := strip vietnamese;
     category := category t;
     source := source;
     confidence := confidence;
     added_date := added_date t;
     last_updated := now (S n);
     versions := versions t ++ [entry vietnamese source confidence n] |}.

(** The states reached from an empty store by the three operations that
    write to it. *)
Inductive reachable : state -> Prop :=
| reach_empty (n : nat) : reachable {| terms := []; time := n |}
| reach_add_term (s : state) (e v cat : option str) (src : str)
    (conf : float) :
    reachable s -> reachable (snd (add_term e v cat src conf s))
| reach_update_term (s : state) (e v src : str) (conf : float) :
    reachable s -> reachable (snd (update_term e v src conf s))
| reach_import_csv (s : state) (rows : list row) (src : str) :
    reachable s -> reachable (snd (import_csv rows src s)).



(** Every key of the store is its own normal form. *)
Definition keys_normalized (d : dict) : Prop :=
  Forall (fun k => normalize k = k) (keys d).

(** A row from which [import_csv] can build the arguments of [add_term]. *)
Definition readable (r : row) : Prop := exists a, row_args r = Ok a.

(** What one readable row does to the state. *)
Definition import_one (src : str) (s : state) (r : row) : state :=
  match row_args r with
  | Ok (e, v, c, x) => snd (add_term e v c src x s)
  | Raise _ => s
  end.

(** Two entries of a ranking tie when neither score is below the other. *)
Definition tie (sc : float) (p : str * float) : bool :=
  negb (flt sc (snd p)) && negb (flt (snd p) sc).

(** The first check fires: the term is stored and its current translation
    differs from the proposal, letter case apart. *)
Definition differs (english vietnamese : str) (d : dict) : bool :=
  match get_translation english d with
  | Some existing =>
      negb (eqb (lower (MedicalDictionary.vietnamese existing))
                (lower vietnamese))
  | None => false
  end.

(** [x] multiplied by [k] if [b] holds. *)
Definition scaled (b : bool) (k : float) (x : float) : float :=
  if b then fmul x k else x.

End Notions.

(** The capitals of the letters listed in the pattern of
    [_check_formatting], which the pattern itself lists only for [Đ]. *)
Definition capital_letters : str :=
  u "ÀÁẢÃẠĂẮẰẲẴẶÂẤẦẨẪẬÈÉẺẼẸÊẾỀỂỄỆÌÍỈĨỊÒÓỎÕỌÔỐỒỔỖỘƠỚỜỞỠỢÙÚỦŨỤƯỨỪỬỮỰỲÝỶỸỴĐ".

(** The whitelist with the diacritic letters in both cases. *)
Definition allowed_both_cases (c : codepoint) : bool :=
  TranslationValidator.allowed c || mem c capital_letters.

(** States and rows used to run the code. *)
Section Samples.
#[local] Existing Instance CPython.runtime.

Definition empty : state := {| terms := []; time := 0 |}.

Definition run {A} (m : M A) (s : state) : state := snd (m s).

Definition sample : state :=
  let s := run (add_term (Some (u "Headache")) (Some (u "đau đầu"))
                  (Some (u "symptom")) (u "manual") (of_int 1)) empty in
  let s := run (add_term (Some (u "heartache")) (Some (u "đau tim"))
                  (Some (u "symptom")) (u "manual") (of_int 1)) s in
  let s := run (add_term (Some (u "stomach")) (Some (u "dạ dày"))
                  (Some (u "anatomy")) (u "manual") (of_int 1)) s in
  run (add_term (Some (u " Fever ")) (Some (u "sốt"))
         (Some (u "symptom")) (u "manual") (decimal 9 1)) s.

(** The state after a first [add_term("fever", "sốt")]. *)
Definition fever_only : state :=
  run (add_term (Some (u "fever")) (Some (u "sốt")) (Some (u "symptom"))
         (u "manual") (of_int 1)) empty.

Definition csv_row (english vietnamese category confidence : string) : row :=
  [(u "English", Some (u english)); (u "Vietnamese", Some (u vietnamese));
   (u "Category", Some (u category)); (u "Confidence", Some (u confidence))].

Definition unparseable_row : row := csv_row "fever" "sốt" "symptom" "high".
Definition cough_row : row := csv_row "cough" "ho" "symptom" "0.9".
Definition flu_row : row := csv_row "flu" "cúm" "disease" "0.8".

Definition keys_normalizedb (d : dict) : bool :=
  forallb (fun k => eqb (normalize k) k) (keys d).

End Samples.

(* ================================================================== *)
(** ** Notions for the further properties *)
(* ================================================================== *)

Section MoreNotions.
Context {R : Runtime}.

(** The translations a record holds, the current one and those of its
    history, have no whitespace at either end. *)
Definition trimmed (t : Term) : Prop :=
  strip (vietnamese t) = vietnamese t
  /\ Forall (fun e => strip (ver_vietnamese e) = ver_vietnamese e)
            (versions t).

(** [s'] comes from [s] by any number of calls of the three operations
    that write to the store. *)
Inductive evolves (s : state) : state -> Prop :=
| evolves_refl : evolves s s
| evolves_add_term (s' : state) (e v cat : option str) (src : str)
    (conf : float) :
    evolves s s' -> evolves s (snd (add_term e v cat src conf s'))
| evolves_update_term (s' : state) (e v src : str) (conf : float) :
    evolves s s' -> evolves s (snd (update_term e v src conf s'))
| evolves_import_csv (s' : state) (rows : list row) (src : str) :
    evolves s s' -> evolves s (snd (import_csv rows src s')).

(** [update_term(K, V, source, confidence)] called for each element of
    [us] in turn. *)
Definition apply_updates (K : str) (us : list (str * str * float))
    (s : state) : state :=
  fold_left
    (fun s0 (p : str * str * float) =>
       let '(V, src, conf) := p in snd (update_term K V src conf s0))
    us s.

(** The test of [suggest_improvements] on the stored translation: the
    term is stored and its translation is not the proposal, letter for
    letter. *)
Definition differs_exactly (english vietnamese : str) (d : dict) : bool :=
  match get_translation english d with
  | Some existing =>
      negb (eqb (MedicalDictionary.vietnamese existing) vietnamese)
  | None => false
  end.

(** The row gives [add_term] two texts, the first with the normal form
    [k]: it writes the record of [k]. *)
Definition writes (k : str) (r : row) : Prop :=
  exists E V c x, row_args r = Ok (Some E, Some V, c, x) /\ normalize E = k.

End MoreNotions.

(** The text of a record's category in an exported file: [None] is written
    as the empty field. *)
Definition category_text (t : Term) : str :=
  match category t with Some c => c | None => [] end.

(** A value handed to [csv.writer.writerow]. *)
Inductive cell :=
| CStr (s : str)
| CFloat (x : float)
| CNone.

(** [export_csv], for a file that opens: the rows handed to the writer, the
    header first and then one row per term in the order of the store. *)
Definition export_csv (d : dict) : list (list cell) :=
  [CStr (u "English"); CStr (u "Vietnamese"); CStr (u "Category");
   CStr (u "Confidence"); CStr (u "Last Updated")]
  :: map (fun kt : str * Term =>
            let (english, data) := kt in
            [CStr english;
             CStr (vietnamese data);
             match category data with Some c => CStr c | None => CNone end;
             CFloat (MedicalDictionary.confidence data);
             CStr (last_updated data)])
         d.

(** The header and the line of a term, as [export_csv] writes them. *)
Definition header : list cell :=
  [CStr (u "English"); CStr (u "Vietnamese"); CStr (u "Category");
   CStr (u "Confidence"); CStr (u "Last Updated")].

Definition line (kt : str * Term) : list cell :=
  [CStr (fst kt);
   CStr (vietnamese (snd kt));
   match category (snd kt) with Some c => CStr c | None => CNone end;
   CFloat (MedicalDictionary.confidence (snd kt));
   CStr (last_updated (snd kt))].

Section ReadBack.
Context {R : Runtime}.

(** The text [c] is a field the reader can get for the written value: the
    text itself, the empty text for [None], and for a number a text that
    [float] reads as that number. *)
Definition field_of (v : cell) (c : str) : Prop :=
  match v with
  | CStr s => c = s
  | CNone => c = []
  | CFloat x => float_of_str c = Some x
  end.

(** The row [r] is what [csv.DictReader] yields for the line written from
    [vs] under the header [names]: each column name with a field of the
    value written in that column. *)
Definition row_of (names vs : list cell) (r : row) : Prop :=
  Forall2 (fun (nv : cell * cell) (kc : str * option str) =>
             field_of (fst nv) (fst kc)
             /\ exists c, snd kc = Some c /\ field_of (snd nv) c)
          (combine names vs) r
  /\ List.length names = List.length vs.

(** The rows [rows] are what reading back the written file [written]
    yields. *)
Definition read_back (written : list (list cell)) (rows : list row) : Prop :=
  match written with
  | [] => rows = []
  | names :: lines => Forall2 (row_of names) lines rows
  end.

End ReadBack.

(** More states and rows used to run the code. *)
Section MoreSamples.
#[local] Existing Instance CPython.runtime.

(** [fever_only] after an update of its term and the addition of another. *)
Definition fever_and_cough : state :=
  let s := run (update_term (u "Fever") (u "cơn sốt") (u "review")
                  (decimal 9 1)) fever_only in
  run (add_term (Some (u "cough")) (Some (u "ho")) (Some (u "symptom"))
         (u "manual") (of_int 1)) s.

(** A file that names the term ["fever"] three times. *)
Definition repeated_rows : list row :=
  [csv_row "Fever" "sot" "symptom" "0.5";
   csv_row "cough" "ho" "symptom" "1.0";
   csv_row "fever " " sốt " "symptom" "0.9";
   csv_row "flu" "cúm" "disease" "0.8"].

Definition exported_row
    (english vietnamese category confidence last_updated : string) : row :=
  [(u "English", Some (u english)); (u "Vietnamese", Some (u vietnamese));
   (u "Category", Some (u category)); (u "Confidence", Some (u confidence));
   (u "Last Updated", Some (u last_updated))].

(** The rows of the file [export_csv] writes for [sample]. *)
Definition sample_rows : list row :=
  [exported_row "headache" "đau đầu" "symptom" "1.0"
     "2024-05-01T09:30:00.000001";
   exported_row "heartache" "đau tim" "symptom" "1.0"
     "2024-05-01T09:30:00.000004";
   exported_row "stomach" "dạ dày" "anatomy" "1.0"
     "2024-05-01T09:30:00.000007";
   exported_row "fever" "sốt" "symptom" "0.9"
     "2024-05-01T09:30:00.000010"].

(** A store whose second, third and fourth keys score alike against
    ["abcd"]. *)
Definition tied_store : state :=
  let add := fun (k : string) (s : state) =>
    run (add_term (Some (u k)) (Some (u "x")) (Some (u "general"))
           (u "manual") (of_int 1)) s in
  add "abcg"%string
    (add "abce"%string (add "abcf"%string (add "abcd"%string empty))).

(** A short line under the header of an exported file: the cells after the
    translation are missing. *)
Definition short_row : row :=
  [(u "English", Some (u "cold")); (u "Vietnamese", Some (u "cảm lạnh"));
   (u "Category", None); (u "Confidence", None); (u "Last Updated", None)].

(** A row of a file that has no [Vietnamese] column. *)
Definition no_translation_row : row :=
  [(u "English", Some (u "cold")); (u "Confidence", Some (u "0.9"))].

End MoreSamples.

(* ================================================================== *)
(** ** Facts about text and [dict] *)
(* ================================================================== *)


Lemma eqb_refl (a : str) : eqb a a = true.
Proof.
  induction a as [|x a IH]; simpl; [reflexivity|].
  now rewrite N.eqb_refl, IH.
Qed.

Lemma eqb_eq (a b : str) : eqb a b = true <-> a = b.
Proof.
  split; [|intros ->; apply eqb_refl].
  revert b; induction a as [|x a IH]; intros [|y b]; simpl; try discriminate.
  - reflexivity.
  - intros H; apply andb_true_iff in H as [Hx Hab].
    apply N.eqb_eq in Hx; apply IH in Hab; now subst.
Qed.

Lemma eqb_neq (a b : str) : eqb a b = false <-> a <> b.
Proof.
  split.
  - intros H E; apply eqb_eq in E; congruence.
  - intros H; destruct (eqb a b) eqn:E; [|reflexivity].
    apply eqb_eq in E; contradiction.
Qed.

Lemma dict_get_set_same (k : str) (v : Term) (d : dict) :
  dict_get k (dict_set k v d) = Some v.
Proof.
  induction d as [|[k' v'] d IH]; simpl.
  - now rewrite eqb_refl.
  - destruct (eqb k k') eqn:E; simpl; rewrite E; [reflexivity|exact IH].
Qed.

Lemma dict_get_set_other (k k' : str) (v : Term) (d : dict) :
  k' <> k -> dict_get k' (dict_set k v d) = dict_get k' d.
Proof.
  intros Hne; induction d as [|[k0 v0] d IH]; simpl.
  - apply eqb_neq in Hne; now rewrite Hne.
  - destruct (eqb k k0) eqn:E; simpl.
    + apply eqb_eq in E; subst k0.
      apply eqb_neq in Hne; now rewrite Hne.
    + destruct (eqb k' k0); [reflexivity|exact IH].
Qed.

Lemma dict_get_In (k : str) (t : Term) (d : dict) :
  dict_get k d = Some t -> In (k, t) d.
Proof.
  induction d as [|[k' v'] d IH]; simpl; [discriminate|].
  destruct (eqb k k') eqn:E.
  - apply eqb_eq in E; subst; intros [= ->]; now left.
  - intros H; right; auto.
Qed.

Lemma In_keys_dict_get (k : str) (d : dict) :
  In k (keys d) -> exists t, dict_get k d = Some t.
Proof.
  induction d as [|[k' v'] d IH]; simpl; [contradiction|].
  intros [->|H].
  - rewrite eqb_refl; eauto.
  - destruct (eqb k k'); eauto.
Qed.

Lemma keys_dict_set (k : str) (v : Term) (d : dict) :
  keys (dict_set k v d) = if dict_mem k d then keys d else keys d ++ [k].
Proof.
  unfold dict_mem. induction d as [|[k' v'] d IH]; simpl; [reflexivity|].
  destruct (eqb k k') eqn:E; simpl; [reflexivity|].
  rewrite IH. now destruct (dict_get k d).
Qed.

Lemma In_dict_set (k : str) (v : Term) (d : dict) (p : str * Term) :
  In p (dict_set k v d) -> p = (k, v) \/ In p d.
Proof.
  induction d as [|[k' v'] d IH]; simpl.
  - intros [<-|[]]; now left.
  - destruct (eqb k k') eqn:E; simpl.
    + apply eqb_eq in E; subst k'. intros [<-|H]; auto.
    + intros [<-|H]; auto. destruct (IH H); auto.
Qed.

(* ================================================================== *)
(** ** The store *)
(* ================================================================== *)

Section Store.
Context {R : Runtime}.

Lemma add_term_eq (s : state) (E V : str) (cat : option str) (src : str)
    (conf : float) :
  add_term (Some E) (Some V) cat src conf s
  = (true,
     {| terms := dict_set (normalize E) (fresh_term V cat src conf (time s))
                          (terms s);
        time := S (S (S (time s))) |}).
Proof. reflexivity. Qed.

Lemma add_term_None_l (s : state) (v cat : option str) (src : str)
    (conf : float) :
  add_term None v cat src conf s = (false, s).
Proof. reflexivity. Qed.

Lemma add_term_None_r (s : state) (e cat : option str) (src : str)
    (conf : float) :
  add_term e None cat src conf s = (false, s).
Proof. destruct e; reflexivity. Qed.

(** C1.  [add_term(E, V, category, source, confidence)] with two texts
    succeeds; it stores under the normalized key of [E] a record whose
    current translation is [V] trimmed and whose version history has exactly
    one entry.  The record depends on the arguments and the clock only, so
    whatever was stored under the key, with its history, is gone; the key
    keeps its place among the keys if it was there and is added last
    otherwise; the other keys keep their records; and [get_translation(E)]
    then returns the new record.  The key is [E.lower().strip()], which is
    [lower(trim(E))] as soon as lower-casing commutes with trimming. *)
Theorem add_term_get_translation (s : state) (E V : str)
    (cat : option str) (src : str) (conf : float) :
  let r := add_term (Some E) (Some V) cat src conf s in
  let t := fresh_term V cat src conf (time s) in
  fst r = true
  /\ dict_get (normalize E) (terms (snd r)) = Some t
  /\ vietnamese t = strip V
  /\ List.length (versions t) = 1
  /\ map ver_vietnamese (versions t) = [strip V]
  /\ keys (terms (snd r))
     = (if dict_mem (normalize E) (terms s) then keys (terms s)
        else keys (terms s) ++ [normalize E])
  /\ (forall k, k <> normalize E ->
        dict_get k (terms (snd r)) = dict_get k (terms s))
  /\ get_translation E (terms (snd r)) = Some t
  /\ ((forall x, lower (strip x) = strip (lower x)) ->
        normalize E = lower (strip E)).
Proof.
  cbv zeta. rewrite add_term_eq. simpl fst; simpl snd; simpl terms.
  repeat split.
  - apply dict_get_set_same.
  - apply keys_dict_set.
  - intros k Hk. now apply dict_get_set_other.
  - unfold get_translation. apply dict_get_set_same.
  - intros H. unfold normalize. now rewrite H.
Qed.

Lemma update_term_missing (s : state) (K V src : str) (conf : float) :
  dict_get (normalize K) (terms s) = None ->
  update_term K V src conf s = (false, s).
Proof.
  intros H. unfold update_term, bind, get_terms.
  fold (normalize K). now rewrite H.
Qed.

(** C9.  When the normalized key is not in the store, [update_term] returns
    [False] and the state is the one it started from: no record has been
    made for the key and the records of the other keys are as they were. *)
Theorem update_term_absent (s : state) (K V src : str) (conf : float) :
  dict_get (normalize K) (terms s) = None ->
  update_term K V src conf s = (false, s)
  /\ get_translation K (terms (snd (update_term K V src conf s))) = None
  /\ terms (snd (update_term K V src conf s)) = terms s.
Proof.
  intros H.
  assert (E : update_term K V src conf s = (false, s)).
  { unfold update_term, bind, get_terms. fold (normalize K). now rewrite H. }
  rewrite E. simpl. repeat split. exact H.
Qed.

Lemma update_term_eq (s : state) (K V src : str) (conf : float) (t : Term) :
  dict_get (normalize K) (terms s) = Some t ->
  update_term K V src conf s
  = (true,
     {| terms := dict_set (normalize K)
                          (updated_term t V src conf (time s)) (terms s);
        time := S (S (time s)) |}).
Proof.
  intros H. unfold update_term, bind, get_terms.
  fold (normalize K). now rewrite H.
Qed.

(** [update_term] on a stored key keeps every earlier version entry as it
    is, adds one entry after them and leaves the creation time alone. *)
Lemma update_term_history (s : state) (K V src : str) (conf : float)
    (t : Term) :
  get_translation K (terms s) = Some t ->
  exists t',
    get_translation K (terms (snd (update_term K V src conf s))) = Some t'
    /\ versions t' = versions t ++ [entry V src conf (time s)]
    /\ added_date t' = added_date t
    /\ vietnamese t' = strip V.
Proof.
  intros H. unfold get_translation in *. fold (normalize K) in *.
  rewrite (update_term_eq _ _ _ _ _ _ H). simpl.
  eexists; split; [apply dict_get_set_same|]. now simpl.
Qed.

(** C2.  After [add_term(K, V1)], [update_term(K, V2)] and
    [update_term(K, V3)] all three calls have succeeded and the record of
    [K] has exactly three version entries, carrying the (trimmed)
    translations V1, V2, V3 in that order; its current translation is V3
    and its creation time is the one [add_term] set.  Each update leaves the
    entries it found untouched and puts one entry after them, from whatever
    state and for whatever stored key it is called. *)
Theorem update_term_appends (s : state) (K V1 V2 V3 : str)
    (cat : option str) (src1 src2 src3 : str) (c1 c2 c3 : float) :
  let r1 := add_term (Some K) (Some V1) cat src1 c1 s in
  let r2 := update_term K V2 src2 c2 (snd r1) in
  let r3 := update_term K V3 src3 c3 (snd r2) in
  fst r1 = true /\ fst r2 = true /\ fst r3 = true
  /\ (exists t1 t2 t3 : Term,
        get_translation K (terms (snd r1)) = Some t1
        /\ get_translation K (terms (snd r2)) = Some t2
        /\ get_translation K (terms (snd r3)) = Some t3
        /\ List.length (versions t3) = 3
        /\ map ver_vietnamese (versions t3) = [strip V1; strip V2; strip V3]
        /\ vietnamese t3 = strip V3
        /\ added_date t3 = added_date t1
        /\ added_date t1 = now (time s)
        /\ (exists e2, versions t2 = versions t1 ++ [e2])
        /\ (exists e3, versions t3 = versions t2 ++ [e3]))
  /\ (strip V1 = V1 -> strip V2 = V2 -> strip V3 = V3 ->
      exists t3, get_translation K (terms (snd r3)) = Some t3
                 /\ map ver_vietnamese (versions t3) = [V1; V2; V3]
                 /\ vietnamese t3 = V3)
  /\ (forall (s0 : state) (K0 V src : str) (c : float) (t : Term),
        get_translation K0 (terms s0) = Some t ->
        exists t' e,
          get_translation K0 (terms (snd (update_term K0 V src c s0)))
          = Some t'
          /\ versions t' = versions t ++ [e]
          /\ added_date t' = added_date t).
Proof.
  cbv zeta.
  rewrite add_term_eq. simpl snd.
  set (t1 := fresh_term V1 cat src1 c1 (time s)).
  rewrite (update_term_eq _ _ _ _ _ t1) by apply dict_get_set_same.
  simpl snd. simpl time.
  set (t2 := updated_term t1 V2 src2 c2 _).
  rewrite (update_term_eq _ _ _ _ _ t2) by apply dict_get_set_same.
  simpl snd. simpl time.
  set (t3 := updated_term t2 V3 src3 c3 _).
  unfold get_translation. fold (normalize K). simpl terms.
  rewrite !dict_get_set_same.
  repeat split.
  - exists t1, t2, t3.
    repeat split; try reflexivity; eexists; reflexivity.
  - intros E1 E2 E3. exists t3. split; [reflexivity|].
    simpl. rewrite E1, E2, E3. now split.
  - intros s0 K0 V src c t H.
    destruct (update_term_history s0 K0 V src c t H) as (t' & G & Hv & Ha & _).
    exists t', (entry V src c (time s0)). auto.
Qed.

(** *** The invariant of stored records *)






Lemma import_rows_step (r : row) (rows : list row) (src : str) (s : state) :
  snd (import_rows (r :: rows) src s)
  = match row_args r with
    | Ok _ => snd (import_rows rows src (import_one src s r))
    | Raise _ => s
    end.
Proof.
  unfold import_one. simpl. destruct (row_args r) as [[[[e v] c] x]|ex].
  - unfold bind. now destruct (add_term e v c src x s).
  - reflexivity.
Qed.

Lemma import_csv_snd (rows : list row) (src : str) (s : state) :
  snd (import_csv rows src s) = snd (import_rows rows src s).
Proof.
  unfold import_csv, bind. now destruct (import_rows rows src s).
Qed.




(** *** Import *)

Lemma import_rows_readable (rows : list row) (src : str) (s : state) :
  Forall readable rows ->
  snd (import_rows rows src s) = fold_left (import_one src) rows s.
Proof.
  revert s. induction rows as [|r rows IH]; intros s H; [reflexivity|].
  inversion H as [|? ? [a Ha] Hrows]; subst.
  rewrite import_rows_step, Ha. simpl. now apply IH.
Qed.

Lemma import_rows_stops (good rest : list row) (bad : row) (e : exn)
    (src : str) (s : state) :
  Forall readable good -> row_args bad = Raise e ->
  snd (import_rows (good ++ bad :: rest) src s)
  = fold_left (import_one src) good s.
Proof.
  revert s. induction good as [|r good IH]; intros s H Hbad.
  - simpl app. rewrite import_rows_step, Hbad. reflexivity.
  - inversion H as [|? ? [a Ha] Hgood]; subst.
    simpl app. rewrite import_rows_step, Ha. simpl. now apply IH.
Qed.

(** What [row_args] gives, case by case: the exception for each defect of
    a row, and the arguments for a row without one. *)
Lemma row_args_cases (r : row) :
  (row_get (u "English") r = None -> row_args r = Raise KeyError)
  /\ (forall e, row_get (u "English") r = Some e ->
        row_get (u "Vietnamese") r = None -> row_args r = Raise KeyError)
  /\ (forall e v, row_get (u "English") r = Some e ->
        row_get (u "Vietnamese") r = Some v ->
        let category :=
          match row_get (u "Category") r with
          | None => Some (u "general")
          | Some c => c
          end in
        (row_get (u "Confidence") r = None ->
           row_args r = Ok (e, v, category, of_int 1))
        /\ (row_get (u "Confidence") r = Some None ->
              row_args r = Raise TypeError)
        /\ (forall c, row_get (u "Confidence") r = Some (Some c) ->
              float_of_str c = None -> row_args r = Raise ValueError)
        /\ (forall c x, row_get (u "Confidence") r = Some (Some c) ->
              float_of_str c = Some x ->
              row_args r = Ok (e, v, category, x))).
Proof.
  unfold row_args. split; [|split].
  - now intros ->.
  - now intros e -> ->.
  - intros e v -> ->. cbv zeta. split; [|split; [|split]].
    + now intros ->.
    + now intros ->.
    + now intros c -> ->.
    + now intros c x -> ->.
Qed.

(** A row that lacks the [English] or the [Vietnamese] column, or whose
    confidence cell is missing or is a text [float] rejects. *)
Lemma defective_row_raises (r : row) :
  row_get (u "English") r = None
  \/ row_get (u "Vietnamese") r = None
  \/ row_get (u "Confidence") r = Some None
  \/ (exists c, row_get (u "Confidence") r = Some (Some c)
                /\ float_of_str c = None) ->
  exists e, row_args r = Raise e.
Proof.
  destruct (row_args_cases r) as (HE & HV & Hrest).
  intros H.
  destruct (row_get (u "English") r) as [e|] eqn:Ee;
    [|exists KeyError; now apply HE].
  destruct (row_get (u "Vietnamese") r) as [v|] eqn:Ev;
    [|exists KeyError; now apply (HV e)].
  destruct (Hrest e v eq_refl eq_refl) as (_ & HT & HF & _).
  destruct H as [H|[H|[H|(c & Hc & Hf)]]]; try discriminate.
  - exists TypeError. now apply HT.
  - exists ValueError. now apply (HF c).
Qed.

(** C8, as the code has it.  [import_csv] hands the rows to [add_term] in
    file order for as long as their arguments can be built.  A row whose
    argument building raises ends the import: the rows before it have been
    imported, that row and all rows after it are not.  Building the
    arguments raises [KeyError] for a row without the [English] or the
    [Vietnamese] column, [TypeError] for a row whose confidence cell is
    missing and [ValueError] for one whose confidence [float] rejects; each
    of these rows ends the import.  A readable row whose English or
    Vietnamese cell is missing fails alone, inside [add_term], and leaves
    the state as it was.  A file without a [Confidence] column gets
    confidence 1.0, one without a [Category] column the category
    ["general"]. *)
Theorem import_csv_rows (good : list row) (src : str) (s : state) :
  Forall readable good ->
  snd (import_csv good src s) = fold_left (import_one src) good s
  /\ (forall (bad : row) (e : exn) (rest : list row),
        row_args bad = Raise e ->
        snd (import_csv (good ++ bad :: rest) src s)
        = fold_left (import_one src) good s)
  /\ (forall (r : row) (s0 : state),
        row_get (u "English") r = Some None
        \/ row_get (u "Vietnamese") r = Some None ->
        import_one src s0 r = s0)
  /\ (forall (r : row) (E V : str) (c : option str) (x : float),
        row_args r = Ok (Some E, Some V, c, x) ->
        forall s0, import_one src s0 r
                   = snd (add_term (Some E) (Some V) c src x s0))
  /\ (forall (r : row) e v c x,
        row_args r = Ok (e, v, c, x) ->
        (row_get (u "Confidence") r = None -> x = of_int 1)
        /\ (row_get (u "Category") r = None -> c = Some (u "general")))
  /\ (forall (r : row) (c : str),
        row_get (u "Confidence") r = Some (Some c) ->
        float_of_str c = None -> row_args r = Raise ValueError
                                 \/ row_args r = Raise KeyError)
  /\ (forall (bad : row) (rest : list row),
        row_get (u "English") bad = None
        \/ row_get (u "Vietnamese") bad = None
        \/ row_get (u "Confidence") bad = Some None
        \/ (exists c, row_get (u "Confidence") bad = Some (Some c)
                      /\ float_of_str c = None) ->
        (exists e, row_args bad = Raise e)
        /\ snd (import_csv (good ++ bad :: rest) src s)
           = fold_left (import_one src) good s
        /\ terms (snd (import_csv (good ++ bad :: rest) src s))
           = terms (snd (import_csv good src s)))
  /\ (forall r : row,
        (row_get (u "English") r = None -> row_args r = Raise KeyError)
        /\ (forall e, row_get (u "English") r = Some e ->
              row_get (u "Vietnamese") r = None ->
              row_args r = Raise KeyError)
        /\ (forall e v, row_get (u "English") r = Some e ->
              row_get (u "Vietnamese") r = Some v ->
              let category :=
                match row_get (u "Category") r with
                | None => Some (u "general")
                | Some c => c
                end in
              (row_get (u "Confidence") r = None ->
                 row_args r = Ok (e, v, category, of_int 1))
              /\ (row_get (u "Confidence") r = Some None ->
                    row_args r = Raise TypeError)
              /\ (forall c, row_get (u "Confidence") r = Some (Some c) ->
                    float_of_str c = None -> row_args r = Raise ValueError)
              /\ (forall c x, row_get (u "Confidence") r = Some (Some c) ->
                    float_of_str c = Some x ->
                    row_args r = Ok (e, v, category, x)))).
Proof.
  intros Hgood.
  assert (Hall : snd (import_csv good src s)
                 = fold_left (import_one src) good s).
  { rewrite import_csv_snd. now apply import_rows_readable. }
  assert (Hstop : forall bad e rest, row_args bad = Raise e ->
            snd (import_csv (good ++ bad :: rest) src s)
            = fold_left (import_one src) good s).
  { intros bad e rest Hbad. rewrite import_csv_snd.
    now apply import_rows_stops with (e := e). }
  split; [exact Hall|]. split; [exact Hstop|].
  split.
  { intros r s0 Hcell. unfold import_one.
    destruct (row_args r) as [[[[e v] c] x]|ex] eqn:E; [|reflexivity].
    unfold row_args in E.
    destruct (row_get (u "English") r) as [e0|]; [|discriminate].
    destruct (row_get (u "Vietnamese") r) as [v0|]; [|discriminate].
    assert (e = e0 /\ v = v0) as [-> ->].
    { destruct (row_get (u "Confidence") r) as [[c0|]|];
        [destruct (float_of_str c0)| |]; inversion E; auto. }
    destruct Hcell as [[= ->]|[= ->]].
    + now rewrite add_term_None_l.
    + now rewrite add_term_None_r. }
  split.
  { intros r E V c x Hr s0. unfold import_one. now rewrite Hr. }
  split.
  { intros r e v c x H. unfold row_args in H.
    destruct (row_get (u "English") r); [|discriminate].
    destruct (row_get (u "Vietnamese") r); [|discriminate].
    split; intros Hc; rewrite Hc in H.
    - now inversion H.
    - destruct (row_get (u "Confidence") r) as [[c0|]|];
        [destruct (float_of_str c0)| |]; now inversion H. }
  split.
  { intros r c Hc Hf. unfold row_args.
    destruct (row_get (u "English") r); [|now right].
    destruct (row_get (u "Vietnamese") r); [|now right].
    rewrite Hc, Hf. now left. }
  split.
  { intros bad rest Hdef.
    destruct (defective_row_raises bad Hdef) as [e He].
    split; [now exists e|]. split; [exact (Hstop bad e rest He)|].
    now rewrite (Hstop bad e rest He), Hall. }
  exact row_args_cases.
Qed.

End Store.

(* ================================================================== *)
(** ** The order of scores *)
(* ================================================================== *)

Ltac flt_cases :=
  unfold flt, SFltb, SFcompare;
  repeat match goal with
  | |- context [Z.compare ?a ?b] => destruct (Z.compare_spec a b)
  | |- context [Pos.compare_cont Eq ?a ?b] =>
      change (Pos.compare_cont Eq a b) with (Pos.compare a b);
      destruct (Pos.compare_spec a b)
  end; simpl; try congruence; try lia.

Lemma flt_asym (x y : float) : flt x y = true -> flt y x = false.
Proof.
  destruct x as [[]|[]| |[] mx ex], y as [[]|[]| |[] my ey];
    try reflexivity; try discriminate; flt_cases.
Qed.

(** Away from NaN, "not below" is transitive. *)
Lemma flt_negtrans (x y z : float) :
  is_nan y = false ->
  flt x y = false -> flt y z = false -> flt x z = false.
Proof.
  destruct x as [[]|[]| |[] mx ex], y as [[]|[]| |[] my ey],
           z as [[]|[]| |[] mz ez];
    try reflexivity; try discriminate; intros _; flt_cases.
Qed.

Lemma flt_not_nan (x y : float) : flt x y = true -> is_nan y = false.
Proof.
  destruct x as [[]|[]| |[] ? ?], y as [[]|[]| |[] ? ?];
    try reflexivity; discriminate.
Qed.

(* ================================================================== *)
(** ** Fuzzy lookup *)
(* ================================================================== *)

Section Ranking.
Context {R : Runtime}.

Local Abbreviation above p := (flt threshold (snd p) = true).
Local Abbreviation not_below x y := (flt (snd x) (snd y) = false).

Lemma matches_In (q : str) (ks : list str) (k : str) (sc : float) :
  In (k, sc) (matches q ks)
  <-> In k ks /\ sc = ratio q k /\ flt threshold sc = true.
Proof.
  induction ks as [|k0 ks IH]; simpl.
  - tauto.
  - destruct (flt threshold (ratio q k0)) eqn:E; simpl; rewrite IH.
    + split.
      * intros [[= <- <-]|(H1 & H2 & H3)]; auto.
      * intros ([<-|H1] & -> & H3); auto.
    + split.
      * intros (H1 & H2 & H3); auto.
      * intros ([<-|H1] & -> & H3); [congruence|auto].
Qed.

Lemma matches_above (q : str) (ks : list str) :
  Forall (fun p => above p) (matches q ks).
Proof.
  apply Forall_forall. intros [k sc] H. now apply matches_In in H.
Qed.

Lemma matches_nil (q : str) (ks : list str) :
  (forall k, In k ks -> flt threshold (ratio q k) = false) ->
  matches q ks = [].
Proof.
  induction ks as [|k0 ks IH]; intros H; simpl; [reflexivity|].
  rewrite (H k0) by now left. apply IH. intros k Hk. apply H. now right.
Qed.

Lemma insert_desc_perm (x : str * float) (l : list (str * float)) :
  Permutation (insert_desc x l) (x :: l).
Proof.
  induction l as [|y l IH]; simpl; [reflexivity|].
  destruct (flt (snd x) (snd y)); [|reflexivity].
  rewrite IH. apply perm_swap.
Qed.

Lemma sorted_desc_perm (l : list (str * float)) :
  Permutation (sorted_desc l) l.
Proof.
  induction l as [|x l IH]; simpl; [reflexivity|].
  rewrite insert_desc_perm. now constructor.
Qed.

Lemma insert_desc_sorted (x : str * float) (l : list (str * float)) :
  Forall (fun p => above p) l ->
  StronglySorted (fun a b => not_below a b) l ->
  StronglySorted (fun a b => not_below a b) (insert_desc x l).
Proof.
  intros Hab Hs. induction Hs as [|y l Hs IH Hy]; simpl.
  - repeat constructor.
  - inversion Hab as [|? ? Hy_ab Hl_ab]; subst.
    destruct (flt (snd x) (snd y)) eqn:E.
    + constructor; [now apply IH|].
      apply (Permutation_Forall (Permutation_sym (insert_desc_perm x l))).
      constructor; [now apply flt_asym|assumption].
    + constructor; [now constructor|].
      constructor; [assumption|].
      rewrite Forall_forall in *. intros z Hz.
      apply flt_negtrans with (y := snd y); auto.
      now apply flt_not_nan with (x := threshold).
Qed.

Lemma sorted_desc_sorted (l : list (str * float)) :
  Forall (fun p => above p) l ->
  StronglySorted (fun a b => not_below a b) (sorted_desc l).
Proof.
  induction l as [|x l IH]; intros H; simpl; [constructor|].
  inversion H; subst. apply insert_desc_sorted; [|now apply IH].
  now apply (Permutation_Forall (Permutation_sym (sorted_desc_perm l))).
Qed.

Lemma insert_desc_stable (sc : float) (x : str * float)
    (l : list (str * float)) :
  is_nan sc = false ->
  filter (tie sc) (insert_desc x l) = filter (tie sc) (x :: l).
Proof.
  intros Hsc. induction l as [|y l IH]; [reflexivity|].
  simpl insert_desc. destruct (flt (snd x) (snd y)) eqn:E; [|reflexivity].
  change (filter (tie sc) (y :: insert_desc x l))
    with (if tie sc y then y :: filter (tie sc) (insert_desc x l)
          else filter (tie sc) (insert_desc x l)).
  rewrite IH. simpl.
  destruct (tie sc x) eqn:Tx, (tie sc y) eqn:Ty; try reflexivity.
  exfalso. unfold tie in Tx, Ty.
  apply andb_true_iff in Tx as [_ Tx], Ty as [Ty _].
  apply negb_true_iff in Tx, Ty.
  rewrite (flt_negtrans (snd x) sc (snd y) Hsc Tx Ty) in E. discriminate.
Qed.

Lemma sorted_desc_stable (sc : float) (l : list (str * float)) :
  is_nan sc = false ->
  filter (tie sc) (sorted_desc l) = filter (tie sc) l.
Proof.
  intros Hsc. induction l as [|x l IH]; [reflexivity|].
  simpl sorted_desc. rewrite insert_desc_stable by assumption.
  simpl. now rewrite IH.
Qed.

Lemma firstn_In {A} (x : A) (n : nat) (l : list A) :
  In x (firstn n l) -> In x l.
Proof.
  revert n. induction l as [|y l IH]; intros [|n]; simpl; try tauto.
  intros [->|H]; eauto.
Qed.

Lemma filter_firstn_prefix {A} (P : A -> bool) (n : nat) (l : list A) :
  exists m, filter P (firstn n l) = firstn m (filter P l).
Proof.
  revert n. induction l as [|x l IH]; intros [|n]; simpl;
    try (exists 0; reflexivity).
  destruct (IH n) as [m Hm]. destruct (P x).
  - exists (S m). simpl. now rewrite Hm.
  - exists m. exact Hm.
Qed.

Lemma sorted_app_not_below (l1 l2 : list (str * float)) :
  StronglySorted (fun a b => not_below a b) (l1 ++ l2) ->
  forall a b, In a l1 -> In b l2 -> not_below a b.
Proof.
  induction l1 as [|x l1 IH]; simpl; intros H a b Ha Hb; [contradiction|].
  inversion H as [|? ? Hs Hx]; subst. destruct Ha as [<-|Ha].
  - rewrite Forall_forall in Hx. apply Hx, in_or_app. now right.
  - now apply IH.
Qed.

(** The loop collects, in the order of the keys, those whose ratio is above
    the threshold, each with its ratio. *)
Lemma matches_filter (q : str) (ks : list str) :
  matches q ks
  = map (fun k => (k, ratio q k))
        (filter (fun k => flt threshold (ratio q k)) ks).
Proof.
  induction ks as [|k ks IH]; simpl; [reflexivity|].
  destruct (flt threshold (ratio q k)); simpl; now rewrite IH.
Qed.

(** The threshold is the binary64 number written [0.6]:
    5404319552844595 / 2^53. *)
Lemma threshold_value : threshold = S754_finite false 5404319552844595 (-53).
Proof. vm_compute. reflexivity. Qed.

Lemma filter_map_pair (q : str) (P : str * float -> bool) (ks : list str) :
  map fst (filter P (map (fun k => (k, ratio q k)) ks))
  = filter (fun k => P (k, ratio q k)) ks.
Proof.
  induction ks as [|k ks IH]; simpl; [reflexivity|].
  destruct (P (k, ratio q k)); simpl; now rewrite IH.
Qed.

Lemma filter_filter {A} (P Q : A -> bool) (l : list A) :
  filter P (filter Q l) = filter (fun x => Q x && P x) l.
Proof.
  induction l as [|x l IH]; simpl; [reflexivity|].
  destruct (Q x); simpl; [destruct (P x)|]; now rewrite IH.
Qed.

(** C4.  [get_similar_terms(term, n)], for [n >= 0], ranks the stored keys
    by their [difflib] ratio with the lower-cased, trimmed query.  The
    candidates are the keys whose ratio is above 0.6 (the binary64 number
    that literal denotes), taken in the iteration order of the key set.  The
    result is the first [n] of the candidates put in descending order of
    score; among the returned entries those of equal score stand in the
    iteration order of the key set; a candidate that is not returned is
    outranked by [n] returned ones; and with no candidate the result is the
    empty list. *)
Theorem get_similar_terms_ranking (term : str) (n : Z) (d : dict) :
  (0 <= n)%Z ->
  let q := normalize term in
  let res := get_similar_terms term n d in
  let bound := S754_finite false 5404319552844595 (-53) in
  let above := fun k : str => flt bound (ratio q k) in
  let cands := map (fun k => (k, ratio q k)) (filter above (keys d)) in
  (forall k sc, In (k, sc) cands
                <-> In k (keys d) /\ sc = ratio q k
                    /\ flt bound sc = true)
  /\ (exists ranking, Permutation ranking cands
                      /\ res = firstn (Z.to_nat n) ranking)
  /\ (forall k sc, In (k, sc) res ->
        In k (keys d) /\ sc = ratio q k /\ flt bound sc = true)
  /\ (forall k, In k (keys d) -> flt bound (ratio q k) = true ->
        In (k, ratio q k) res
        \/ (List.length res = Z.to_nat n
            /\ forall p, In p res -> flt (snd p) (ratio q k) = false))
  /\ StronglySorted (fun a b => flt (snd a) (snd b) = false) res
  /\ (forall sc, flt bound sc = true ->
        exists m, filter (tie sc) res = firstn m (filter (tie sc) cands))
  /\ (forall sc, flt bound sc = true ->
        exists m,
          map fst (filter (tie sc) res)
          = firstn m (filter (fun k => above k && tie sc (k, ratio q k))
                             (keys d)))
  /\ List.length res = Nat.min (Z.to_nat n) (List.length (filter above (keys d)))
  /\ ((forall k, In k (keys d) -> flt bound (ratio q k) = false) ->
      res = [])
  /\ bound = decimal 6 1.
Proof.
  intros Hn q res bound above cands.
  assert (Hbound : threshold = bound) by exact threshold_value.
  assert (Hcands : matches q (keys d) = cands).
  { rewrite matches_filter. unfold cands, above. now rewrite Hbound. }
  assert (Hres : res = firstn (Z.to_nat n) (sorted_desc cands)).
  { unfold res, get_similar_terms, slice_to. fold (normalize term). fold q.
    rewrite Hcands. apply Z.leb_le in Hn. now rewrite Hn. }
  assert (Hin : forall k sc, In (k, sc) cands
                  <-> In k (keys d) /\ sc = ratio q k /\ flt bound sc = true).
  { intros k sc. rewrite <- Hcands, <- Hbound. apply matches_In. }
  assert (Hperm := sorted_desc_perm cands).
  assert (Habove : Forall (fun p => flt threshold (snd p) = true) cands).
  { rewrite <- Hcands. apply matches_above. }
  assert (Hsorted := sorted_desc_sorted cands Habove).
  assert (Hties : forall sc, flt bound sc = true ->
            exists m, filter (tie sc) res = firstn m (filter (tie sc) cands)).
  { intros sc Hsc. rewrite Hres.
    destruct (filter_firstn_prefix (tie sc) (Z.to_nat n) (sorted_desc cands))
      as [m Hm].
    exists m. rewrite Hm. f_equal. apply sorted_desc_stable.
    now apply flt_not_nan with (x := bound). }
  split; [exact Hin|].
  split; [now exists (sorted_desc cands)|].
  split.
  { intros k sc H. apply Hin. rewrite Hres in H.
    apply firstn_In in H. now apply (Permutation_in _ Hperm). }
  split.
  { intros k Hk Hab.
    assert (Hin' : In (k, ratio q k) (sorted_desc cands)).
    { apply (Permutation_in _ (Permutation_sym Hperm)).
      now apply Hin. }
    rewrite <- (firstn_skipn (Z.to_nat n) (sorted_desc cands)) in Hin', Hsorted.
    rewrite <- Hres in Hin', Hsorted.
    apply in_app_or in Hin' as [Hin'|Hin']; [now left|right]. split.
    - rewrite Hres. apply firstn_length_le.
      destruct (Nat.le_gt_cases (Z.to_nat n) (List.length (sorted_desc cands)))
        as [Hle|Hgt]; [exact Hle|].
      rewrite skipn_all2 in Hin' by lia. contradiction.
    - intros p Hp.
      exact (sorted_app_not_below _ _ Hsorted p (k, ratio q k) Hp Hin'). }
  split.
  { rewrite <- (firstn_skipn (Z.to_nat n) (sorted_desc cands)) in Hsorted.
    rewrite <- Hres in Hsorted.
    clear - Hsorted. induction res as [|x l IH]; [constructor|].
    simpl in Hsorted. inversion Hsorted as [|? ? Hs Hx]; subst.
    constructor; [now apply IH|].
    apply Forall_app in Hx. tauto. }
  split; [exact Hties|].
  split.
  { intros sc Hsc. destruct (Hties sc Hsc) as [m Hm].
    exists m. rewrite Hm, <- firstn_map. f_equal.
    unfold cands. rewrite filter_map_pair. apply filter_filter. }
  split.
  { rewrite Hres, length_firstn, (Permutation_length Hperm).
    unfold cands. now rewrite length_map. }
  split.
  { intros Hnone. rewrite Hres, <- Hcands.
    rewrite (matches_nil q (keys d)); [simpl; apply firstn_nil|].
    intros k Hk. rewrite Hbound. now apply Hnone. }
  vm_compute. reflexivity.
Qed.

(** Whatever [n] is, the keys returned are keys of the store. *)
Lemma get_similar_terms_keys (term : str) (n : Z) (d : dict) (k : str)
    (sc : float) :
  In (k, sc) (get_similar_terms term n d) -> In k (keys d).
Proof.
  unfold get_similar_terms, slice_to. intros H.
  assert (Hin : In (k, sc) (sorted_desc (matches (strip (lower term)) (keys d)))).
  { destruct (0 <=? n)%Z; now apply firstn_In in H. }
  apply (Permutation_in _ (sorted_desc_perm _)) in Hin.
  now apply matches_In in Hin.
Qed.

End Ranking.

(* ================================================================== *)
(** ** The validator *)
(* ================================================================== *)

Import TranslationValidator.

Lemma mem_In (c : codepoint) (s : str) : mem c s = true <-> In c s.
Proof.
  unfold mem. rewrite existsb_exists. split.
  - intros (x & Hx & E). apply N.eqb_eq in E. now subst.
  - intros H. exists c. split; [exact H|apply N.eqb_refl].
Qed.

(** Each letter of the pattern [[ăâđêôơư]] is one of [vietnamese_chars]. *)
Lemma base_letters_listed :
  forallb (fun c => mem c vietnamese_chars) base_letters = true.
Proof. vm_compute. reflexivity. Qed.

(** No capital of a listed letter is in the class of the pattern, [Đ]
    apart. *)
Lemma capital_letters_refused :
  forallb (fun c => (c =? 0x110)%N || negb (allowed c)) capital_letters = true.
Proof. vm_compute. reflexivity. Qed.

(** [_check_formatting] accepts a text exactly when it is not empty, has no
    whitespace at either end, has no two spaces in a row and is made of
    characters of the class [a-zA-Z0-9...đĐ\s\-.,()]. *)
Lemma check_formatting_spec (text : str) :
  _check_formatting text = true
  <-> text <> []
      /\ strip text = text
      /\ contains2 0x20%N 0x20%N text = false
      /\ forallb allowed text = true.
Proof.
  unfold _check_formatting. destruct text as [|c text].
  - split; [discriminate|]. intros (H & _). now contradiction H.
  - set (t := c :: text).
    assert (Hne : t <> []) by discriminate. clearbody t.
    assert (Hall : forallb allowed t
                   = negb (existsb (fun c => negb (allowed c)) t)).
    { clear. induction t as [|x t IH]; simpl; [reflexivity|].
      rewrite IH. now destruct (allowed x). }
    rewrite Hall.
    destruct (eqb t (strip t)) eqn:E1; simpl.
    + apply eqb_eq in E1.
      destruct (contains2 32%N 32%N t); simpl.
      * split; [discriminate|]. intros (_ & _ & H & _). discriminate H.
      * destruct (existsb (fun c0 => negb (allowed c0)) t); simpl.
        -- split; [discriminate|]. intros (_ & _ & _ & H). discriminate H.
        -- split; [|reflexivity]. intros _. repeat split; auto.
    + apply eqb_neq in E1. split; [discriminate|].
      intros (_ & H & _). symmetry in H. contradiction.
Qed.

(** A text with a capital diacritic letter other than [Đ] fails
    [_check_formatting], whatever else it holds. *)
Lemma check_formatting_capital (text : str) (c : codepoint) :
  In c text -> mem c capital_letters = true -> c <> 0x110%N ->
  _check_formatting text = false.
Proof.
  intros Hin Hcap Hne.
  destruct (_check_formatting text) eqn:E; [|reflexivity].
  apply check_formatting_spec in E as (_ & _ & _ & Hall).
  rewrite forallb_forall in Hall. specialize (Hall c Hin).
  pose proof capital_letters_refused as Href.
  rewrite forallb_forall in Href.
  apply mem_In in Hcap. specialize (Href c Hcap).
  rewrite Hall in Href. simpl in Href. rewrite orb_false_r in Href.
  apply N.eqb_eq in Href. contradiction.
Qed.

Section Validation.
Context {R : Runtime}.

(** The diacritic check cannot fire: a text that holds one of the letters
    [ăâđêôơư] holds one of [vietnamese_chars], which lists them all. *)
Lemma has_missing_diacritics_never (text : str) :
  _has_missing_diacritics text = false.
Proof.
  unfold _has_missing_diacritics.
  destruct (existsb (fun c => mem c base_letters) (lower text)) eqn:E;
    [|reflexivity].
  apply existsb_exists in E as (c & Hc & Hbase).
  assert (H : existsb (fun c0 => mem c0 (lower text)) vietnamese_chars = true).
  { apply existsb_exists. exists c. split; [|now apply mem_In].
    apply mem_In.
    pose proof base_letters_listed as Hl. rewrite forallb_forall in Hl.
    apply Hl. now apply mem_In. }
  now rewrite H.
Qed.

Lemma checks_spec (english vietnamese : str) (d : dict) :
  let c1 := differs english vietnamese d in
  let c2 := _has_missing_diacritics vietnamese in
  let c3 := negb (_check_formatting vietnamese) in
  let r := checks english vietnamese d in
  confidence r
  = scaled c3 (decimal 9 1)
      (scaled c2 (decimal 8 1) (scaled c1 (decimal 7 1) (of_int 1)))
  /\ valid r = negb (c1 || c2 || c3)
  /\ issues r
     = (if c1 then [u "Translation differs from dictionary"] else [])
       ++ (if c2 then [u "Missing diacritical marks"] else [])
       ++ (if c3 then [u "Incorrect formatting"] else [])
  /\ suggestions r
     = match get_translation english d with
       | Some existing =>
           if c1 then [MedicalDictionary.vietnamese existing] else []
       | None => []
       end
  /\ similar_terms r = None.
Proof.
  cbv zeta. unfold checks, differs.
  destruct (get_translation english d) as [t|];
    [destruct (negb (eqb (lower (MedicalDictionary.vietnamese t))
                         (lower vietnamese)))|];
    destruct (_has_missing_diacritics vietnamese);
    destruct (_check_formatting vietnamese); simpl; auto.
Qed.

Lemma get_translation_key (d : dict) (k : str) :
  keys_normalized d -> In k (keys d) ->
  exists t, dict_get k d = Some t /\ get_translation k d = Some t.
Proof.
  intros Hn Hk. unfold keys_normalized in Hn. rewrite Forall_forall in Hn.
  destruct (In_keys_dict_get k d Hk) as [t Ht]. exists t. split; [exact Ht|].
  unfold get_translation. fold (normalize k). now rewrite (Hn k Hk).
Qed.

Lemma similar_entries_ok (d : dict) (l : list (str * float)) :
  (forall k sc, In (k, sc) l -> exists t, get_translation k d = Some t) ->
  exists es,
    similar_entries l d = Ok es
    /\ map st_english es = map fst l
    /\ map st_similarity es = map snd l
    /\ Forall (fun e => exists t, get_translation (st_english e) d = Some t
                                  /\ st_vietnamese e
                                     = MedicalDictionary.vietnamese t) es.
Proof.
  induction l as [|[k sc] l IH]; intros H; simpl.
  - exists []. repeat split. constructor.
  - destruct (H k sc (or_introl eq_refl)) as [t Ht]. rewrite Ht.
    destruct IH as (es & -> & He & Hs & Hv).
    { intros k' sc' Hin. apply (H k' sc'). now right. }
    eexists. split; [reflexivity|]. simpl. rewrite He, Hs.
    repeat split. constructor; [|exact Hv]. exists t. now split.
Qed.

Lemma related_lines_ok (d : dict) (l : list (str * float)) :
  (forall k sc, In (k, sc) l -> exists t, get_translation k d = Some t) ->
  exists ls, related_lines l d = Ok ls.
Proof.
  induction l as [|[k sc] l IH]; intros H; simpl.
  - now exists [].
  - destruct (H k sc (or_introl eq_refl)) as [t Ht]. rewrite Ht.
    destruct IH as (ls & ->).
    { intros k' sc' Hin. apply (H k' sc'). now right. }
    eexists. reflexivity.
Qed.

Lemma similar_found (d : dict) (term : str) (n : Z) (k : str) (sc : float) :
  keys_normalized d -> In (k, sc) (get_similar_terms term n d) ->
  exists t, dict_get k d = Some t /\ get_translation k d = Some t.
Proof.
  intros Hn Hin. apply get_translation_key; [exact Hn|].
  now apply get_similar_terms_keys in Hin.
Qed.

(** C7.  On a store whose keys are normalized, [validate_translation]
    returns, and all three checks have been run: the confidence is 1.0
    multiplied by 0.7 if the stored translation differs from the proposal
    (letter case apart), by 0.8 if the diacritic check fires and by 0.9 if
    the formatting check fails, each factor present or absent by its own
    check alone; the verdict and the issues follow the same three outcomes;
    and ["similar_terms"] is set exactly when [get_similar_terms] finds
    something, with the found keys, their scores and their current
    translations, whatever the verdict. *)
Theorem validate_translation_checks (english vietnamese : str) (d : dict) :
  keys_normalized d ->
  let c1 := differs english vietnamese d in
  let c2 := _has_missing_diacritics vietnamese in
  let c3 := negb (_check_formatting vietnamese) in
  let similar := get_similar_terms english 5 d in
  exists r,
    validate_translation english vietnamese d = Ok r
    /\ confidence r
       = scaled c3 (decimal 9 1)
           (scaled c2 (decimal 8 1) (scaled c1 (decimal 7 1) (of_int 1)))
    /\ valid r = negb (c1 || c2 || c3)
    /\ issues r
       = (if c1 then [u "Translation differs from dictionary"] else [])
         ++ (if c2 then [u "Missing diacritical marks"] else [])
         ++ (if c3 then [u "Incorrect formatting"] else [])
    /\ (similar = [] -> similar_terms r = None)
    /\ (similar <> [] ->
        exists es,
          similar_terms r = Some es
          /\ map st_english es = map fst similar
          /\ map st_similarity es = map snd similar
          /\ Forall (fun e =>
                       exists t, get_translation (st_english e) d = Some t
                                 /\ st_vietnamese e
                                    = MedicalDictionary.vietnamese t) es).
Proof.
  intros Hn c1 c2 c3 similar.
  destruct (checks_spec english vietnamese d) as (Hc & Hv & Hi & _ & Hs).
  unfold validate_translation. fold similar.
  destruct similar as [|p l] eqn:E.
  - exists (checks english vietnamese d). repeat split; auto.
    intros H. now contradiction H.
  - destruct (similar_entries_ok d (p :: l)) as (es & Hes & H1 & H2 & H3).
    { intros k sc Hin. rewrite <- E in Hin.
      destruct (similar_found d english 5 k sc Hn Hin) as (t & _ & Ht).
      now exists t. }
    rewrite Hes. eexists. split; [reflexivity|]. simpl.
    repeat split; auto; [discriminate|].
    intros _. exists es. auto.
Qed.

Lemma dict_set_keys_normalized (k : str) (t : Term) (d : dict) :
  normalize k = k -> keys_normalized d -> keys_normalized (dict_set k t d).
Proof.
  unfold keys_normalized, keys. intros Hk Hd.
  rewrite Forall_forall in *. intros x Hx.
  apply in_map_iff in Hx as ([k' t'] & <- & Hin).
  destruct (In_dict_set _ _ _ _ Hin) as [[= -> ->]|H]; [exact Hk|].
  apply Hd. now apply (in_map fst) in H.
Qed.

Section Idempotent.
Hypothesis normalize_idem : forall s : str, normalize (normalize s) = normalize s.

Lemma add_term_keys_normalized (s : state) (e v cat : option str) (src : str)
    (conf : float) :
  keys_normalized (terms s) ->
  keys_normalized (terms (snd (add_term e v cat src conf s))).
Proof.
  intros H. destruct e as [e|]; [|exact H].
  destruct v as [v|]; [|exact H].
  rewrite add_term_eq. simpl. now apply dict_set_keys_normalized.
Qed.

Lemma update_term_keys_normalized (s : state) (K V src : str) (conf : float) :
  keys_normalized (terms s) ->
  keys_normalized (terms (snd (update_term K V src conf s))).
Proof.
  intros H. destruct (dict_get (normalize K) (terms s)) as [t|] eqn:E.
  - rewrite (update_term_eq _ _ _ _ _ _ E). simpl.
    now apply dict_set_keys_normalized.
  - now rewrite (update_term_missing _ _ _ _ _ E).
Qed.

Lemma import_csv_keys_normalized (rows : list row) (src : str) (s : state) :
  keys_normalized (terms s) ->
  keys_normalized (terms (snd (import_csv rows src s))).
Proof.
  rewrite import_csv_snd. revert s.
  induction rows as [|r rows IH]; intros s H; [exact H|].
  rewrite import_rows_step.
  destruct (row_args r) as [[[[e v] c] x]|ex] eqn:E; [|exact H].
  apply IH. unfold import_one. rewrite E.
  now apply add_term_keys_normalized.
Qed.

Lemma reachable_keys_normalized (s : state) :
  reachable s -> keys_normalized (terms s).
Proof.
  induction 1 as [n|s e v cat src conf _ IH|s e v src conf _ IH
                  |s rows src _ IH].
  - constructor.
  - now apply add_term_keys_normalized.
  - now apply update_term_keys_normalized.
  - now apply import_csv_keys_normalized.
Qed.

End Idempotent.

(** C10.  Normalizing twice being the same as normalizing once, every state
    reached from an empty store through [add_term], [update_term] and
    [import_csv] has normalized keys.  On a store with normalized keys every
    key returned by [get_similar_terms] is in the store and
    [get_translation] finds its record, so [validate_translation] and
    [suggest_improvements] return without subscripting a missing record. *)
Theorem similar_terms_are_stored :
  (forall s : str, normalize (normalize s) = normalize s) ->
  (forall s : state, reachable s -> keys_normalized (terms s))
  /\ (forall d : dict, keys_normalized d ->
        (forall term n k sc,
            In (k, sc) (get_similar_terms term n d) ->
            exists t, dict_get k d = Some t /\ get_translation k d = Some t)
        /\ (forall english vietnamese,
               exists r, validate_translation english vietnamese d = Ok r)
        /\ (forall english vietnamese,
               exists l, suggest_improvements english vietnamese d = Ok l)).
Proof.
  intros Hidem. split; [intros s; now apply reachable_keys_normalized|].
  intros d Hn. split; [|split].
  - intros term n k sc. now apply similar_found.
  - intros english vietnamese. unfold validate_translation.
    destruct (get_similar_terms english 5 d) as [|p l] eqn:E;
      [eexists; reflexivity|].
    destruct (similar_entries_ok d (p :: l)) as (es & Hes & _).
    { intros k sc Hin. rewrite <- E in Hin.
      destruct (similar_found d english 5 k sc Hn Hin) as (t & _ & Ht).
      now exists t. }
    rewrite Hes. eexists. reflexivity.
  - intros english vietnamese. unfold suggest_improvements.
    destruct (get_similar_terms english 5 d) as [|p l] eqn:E;
      [eexists; reflexivity|].
    destruct (related_lines_ok d (firstn 3 (p :: l))) as (ls & Hls).
    { intros k sc Hin. apply firstn_In in Hin. rewrite <- E in Hin.
      destruct (similar_found d english 5 k sc Hn Hin) as (t & _ & Ht).
      now exists t. }
    rewrite Hls. eexists. reflexivity.
Qed.

End Validation.

(* ================================================================== *)
(** ** Trimming and lower-casing *)
(* ================================================================== *)

Lemma lstrip_idem (s : str) : lstrip (lstrip s) = lstrip s.
Proof.
  induction s as [|c s IH]; simpl; [reflexivity|].
  destruct (isspace c) eqn:E; [exact IH|]. simpl. now rewrite E.
Qed.

Lemma lstrip_snoc (s : str) (c : codepoint) :
  isspace c = false -> lstrip (s ++ [c]) = lstrip s ++ [c].
Proof.
  intros Hc. induction s as [|x s IH]; simpl.
  - now rewrite Hc.
  - destruct (isspace x); [exact IH|reflexivity].
Qed.

Lemma rstrip_cons (c : codepoint) (s : str) :
  isspace c = false -> rstrip (c :: s) = c :: rstrip s.
Proof.
  intros Hc. unfold rstrip. simpl rev.
  rewrite lstrip_snoc by exact Hc. rewrite rev_app_distr. reflexivity.
Qed.

Lemma rstrip_idem (s : str) : rstrip (rstrip s) = rstrip s.
Proof. unfold rstrip. now rewrite rev_involutive, lstrip_idem. Qed.

Lemma lstrip_rstrip (s : str) : lstrip (rstrip (lstrip s)) = rstrip (lstrip s).
Proof.
  induction s as [|c s IH]; simpl; [reflexivity|].
  destruct (isspace c) eqn:E; [exact IH|].
  rewrite rstrip_cons by exact E. simpl. now rewrite E.
Qed.

Lemma strip_idem (s : str) : strip (strip s) = strip s.
Proof. unfold strip. now rewrite lstrip_rstrip, rstrip_idem. Qed.

Section MapStrip.
Variable f : codepoint -> codepoint.
Hypothesis f_space : forall c, isspace (f c) = isspace c.

Lemma lstrip_map (s : str) : lstrip (map f s) = map f (lstrip s).
Proof.
  induction s as [|c s IH]; simpl; [reflexivity|].
  rewrite f_space. destruct (isspace c); [exact IH|reflexivity].
Qed.

Lemma strip_map (s : str) : strip (map f s) = map f (strip s).
Proof.
  unfold strip, rstrip.
  now rewrite lstrip_map, <- map_rev, lstrip_map, map_rev.
Qed.

End MapStrip.

Ltac to_prop :=
  repeat match goal with
  | H : (_ && _)%bool = true |- _ => apply andb_true_iff in H as [? ?]
  | H : negb _ = true |- _ => apply negb_true_iff in H
  | H : (_ <=? _)%N = true |- _ => apply N.leb_le in H
  | H : (_ =? _)%N = false |- _ => apply N.eqb_neq in H
  end.

Ltac is_false :=
  lazymatch goal with
  | |- (_ && _)%bool = false =>
      apply andb_false_iff; first [left; is_false | right; is_false]
  | |- (_ || _)%bool = false => apply orb_false_iff; split; is_false
  | |- (_ <=? _)%N = false => apply N.leb_gt; lia
  | |- (_ =? _)%N = false => apply N.eqb_neq; lia
  | |- false = false => reflexivity
  end.

Module CPythonFacts.
Import CPython.

Lemma lower_cp_spec (c : codepoint) :
  (lower_cp c = (c + 32)%N /\ (0x41 <= c <= 0x5A)%N)
  \/ (lower_cp c = (c + 32)%N /\ (0xC0 <= c <= 0xDE)%N)
  \/ (lower_cp c = (c + 1)%N /\ In c capitals_outside_latin1)
  \/ (lower_cp c = (c + 1)%N /\ (0x1EA0 <= c <= 0x1EF9)%N /\ N.even c = true)
  \/ lower_cp c = c.
Proof.
  unfold lower_cp.
  destruct ((0x41 <=? c) && (c <=? 0x5A))%N eqn:E1;
    [to_prop; left; split; [reflexivity|lia]|].
  destruct ((0xC0 <=? c) && (c <=? 0xDE) && negb (c =? 0xD7))%N eqn:E2;
    [to_prop; right; left; split; [reflexivity|lia]|].
  destruct (mem c capitals_outside_latin1) eqn:E3;
    [apply mem_In in E3; right; right; left; now split|].
  destruct ((0x1EA0 <=? c) && (c <=? 0x1EF9) && N.even c)%N eqn:E4;
    [to_prop; do 3 right; left; repeat split; auto; lia|].
  now do 4 right.
Qed.

Lemma lower_cp_fixed (r : codepoint) :
  ((0x41 <=? r) && (r <=? 0x5A))%N = false ->
  ((0xC0 <=? r) && (r <=? 0xDE) && negb (r =? 0xD7))%N = false ->
  mem r capitals_outside_latin1 = false ->
  ((0x1EA0 <=? r) && (r <=? 0x1EF9) && N.even r)%N = false ->
  lower_cp r = r.
Proof. unfold lower_cp. now intros -> -> -> ->. Qed.

Lemma isspace_false (c : codepoint) :
  (0x21 <= c <= 0x84 \/ 0xA1 <= c <= 0x167F \/ 0x1681 <= c <= 0x1FFF)%N ->
  isspace c = false.
Proof.
  intros H. unfold isspace, mem, whitespace. cbn [existsb].
  repeat (apply orb_false_iff; split); try reflexivity;
    apply N.eqb_neq; lia.
Qed.

Lemma isspace_lower_cp (c : codepoint) : isspace (lower_cp c) = isspace c.
Proof.
  destruct (lower_cp_spec c) as [[-> H]|[[-> H]|[[-> H]|[[-> [H _]] | -> ]]]];
    try reflexivity.
  - rewrite !isspace_false; [reflexivity|lia|lia].
  - rewrite !isspace_false; [reflexivity|lia|lia].
  - unfold capitals_outside_latin1 in H. cbn [In] in H.
    repeat (destruct H as [<-|H]; [reflexivity|]). contradiction.
  - rewrite !isspace_false; [reflexivity|lia|lia].
Qed.

Lemma lower_cp_idem (c : codepoint) : lower_cp (lower_cp c) = lower_cp c.
Proof.
  destruct (lower_cp_spec c) as [[-> H]|[[-> H]|[[-> H]|[[-> [H Hev]]|E]]]].
  - apply lower_cp_fixed; unfold mem, capitals_outside_latin1;
      cbn [existsb]; is_false.
  - apply lower_cp_fixed; unfold mem, capitals_outside_latin1;
      cbn [existsb]; is_false.
  - unfold capitals_outside_latin1 in H. cbn [In] in H.
    repeat (destruct H as [<-|H]; [reflexivity|]). contradiction.
  - assert (Hodd : N.even (c + 1) = false).
    { rewrite N.add_1_r, N.even_succ, <- N.negb_even, Hev. reflexivity. }
    apply lower_cp_fixed; try rewrite Hodd, andb_false_r;
      try reflexivity; unfold mem, capitals_outside_latin1;
      cbn [existsb]; is_false.
  - now rewrite !E.
Qed.

Lemma lower_latin_strip (s : str) :
  lower_latin (strip s) = strip (lower_latin s).
Proof. unfold lower_latin. symmetry. apply strip_map, isspace_lower_cp. Qed.

Lemma lower_latin_idem (s : str) : lower_latin (lower_latin s) = lower_latin s.
Proof.
  unfold lower_latin. rewrite map_map. apply map_ext, lower_cp_idem.
Qed.

Lemma normalize_latin_idem (s : str) :
  normalize (R := runtime) (normalize (R := runtime) s)
  = normalize (R := runtime) s.
Proof.
  unfold normalize. cbn [lower runtime].
  now rewrite <- lower_latin_strip, strip_idem, lower_latin_strip,
              lower_latin_idem.
Qed.

End CPythonFacts.

(* ================================================================== *)
(** ** The code on concrete inputs *)
(* ================================================================== *)

Section Runs.
#[local] Existing Instance CPython.runtime.

Lemma keys_normalizedb_ok (d : dict) :
  keys_normalizedb d = true -> keys_normalized d.
Proof.
  unfold keys_normalizedb, keys_normalized. rewrite forallb_forall.
  intros H. apply Forall_forall. intros k Hk. now apply eqb_eq, H.
Qed.

Lemma sample_reachable : reachable sample.
Proof.
  unfold sample, run. cbv zeta.
  repeat apply reach_add_term. apply (reach_empty 0).
Qed.

(** The store of the examples: four terms, in insertion order, under their
    normalized keys. *)
Example sample_keys :
  keys (terms sample)
  = [u "headache"; u "heartache"; u "stomach"; u "fever"].
Proof. vm_compute. reflexivity. Qed.

(** The ranking the spec gives as an example: the query ["hadache"] finds
    ["headache"] (14/15) before ["heartache"] (3/4) and not ["stomach"]. *)
Example hadache_ranking :
  get_similar_terms (u "hadache") 5 (terms sample)
  = [(u "headache", S754_finite false 8406719304424926 (-53));
     (u "heartache", S754_finite false 6755399441055744 (-53))].
Proof. vm_compute. reflexivity. Qed.

Example dissimilar_query :
  get_similar_terms (u "xyz123") 5 (terms sample) = [].
Proof. vm_compute. reflexivity. Qed.

(** C4 at the query ["hadache"] with the default [n = 5]. *)
Lemma get_similar_terms_ranking_run :
  (0 <= 5)%Z
  /\ StronglySorted (fun a b => flt (snd a) (snd b) = false)
       (get_similar_terms (u "hadache") 5 (terms sample))
  /\ List.length (get_similar_terms (u "hadache") 5 (terms sample))
     = Nat.min (Z.to_nat 5)
         (List.length
            (filter (fun k => flt (S754_finite false 5404319552844595 (-53))
                                  (ratio (normalize (u "hadache")) k))
                    (keys (terms sample)))).
Proof.
  assert (H5 : (0 <= 5)%Z) by lia.
  destruct (get_similar_terms_ranking (u "hadache") 5 (terms sample) H5)
    as (_ & _ & _ & _ & Hsorted & _ & _ & Hlen & _).
  split; [exact H5|]. split; [exact Hsorted|exact Hlen].
Defined.

(** The re-add of the spec: a second [add_term] for the same normalized key
    leaves one record with one version entry, the new one. *)
Example add_term_twice :
  let s := run (add_term (Some (u "FEVER")) (Some (u "sot")) (Some (u "symptom"))
                  (u "manual") (of_int 1)) fever_only in
  keys (terms s) = [u "fever"]
  /\ option_map (fun t => map ver_vietnamese (versions t))
       (get_translation (u "fever") (terms s))
     = Some [u "sot"].
Proof. vm_compute. split; reflexivity. Qed.

(** The update sequence of the spec on the record of ["fever"]. *)
Example update_term_twice :
  let s := run (update_term (u "fever") (u "sốt cao") (u "review") (decimal 9 1))
             fever_only in
  let s := run (update_term (u "Fever ") (u " cơn sốt ") (u "review") (of_int 1))
             s in
  option_map (fun t => (map ver_vietnamese (versions t), vietnamese t,
                        added_date t))
    (get_translation (u "fever") (terms s))
  = Some ([u "sốt"; u "sốt cao"; u "cơn sốt"], u "cơn sốt",
          u "2024-05-01T09:30:00").
Proof. vm_compute. reflexivity. Qed.

(** Equal scores keep the order of the keys: ["abcf"], ["abce"] and
    ["abcg"] all score 3/4 against ["abcd"]. *)
Example tied_scores_in_key_order :
  keys (terms tied_store) = [u "abcd"; u "abcf"; u "abce"; u "abcg"]
  /\ map fst (get_similar_terms (u "abcd") 5 (terms tied_store))
     = [u "abcd"; u "abcf"; u "abce"; u "abcg"]
  /\ map fst (get_similar_terms (u "abcd") 3 (terms tied_store))
     = [u "abcd"; u "abcf"; u "abce"].
Proof. vm_compute. repeat split; reflexivity. Qed.

(** A short line and a file without a [Vietnamese] column end the import
    as an unparseable confidence does. *)
Example import_stops_at_defective_rows :
  row_args short_row = Raise TypeError
  /\ row_args no_translation_row = Raise KeyError
  /\ keys (terms (snd (import_csv [flu_row; short_row; cough_row]
                         (u "import") empty)))
     = [u "flu"]
  /\ keys (terms (snd (import_csv [flu_row; no_translation_row; cough_row]
                         (u "import") empty)))
     = [u "flu"].
Proof. vm_compute. repeat split; reflexivity. Qed.

(** C9 at a key that is not stored. *)
Lemma update_term_absent_run :
  dict_get (normalize (u "nonexistent")) (terms sample) = None
  /\ update_term (u "nonexistent") (u "x") (u "manual") (of_int 1) sample
     = (false, sample).
Proof.
  assert (H : dict_get (normalize (u "nonexistent")) (terms sample) = None)
    by (vm_compute; reflexivity).
  split; [exact H|].
  exact (proj1 (update_term_absent sample (u "nonexistent") (u "x")
                  (u "manual") (of_int 1) H)).
Defined.



(** C8 as stated fails on a file of two rows, the first with the confidence
    ["high"] and the second well formed: the second is not imported, the
    store stays empty. *)
Lemma unparseable_confidence_aborts_import :
  row_args unparseable_row = Raise ValueError
  /\ row_args cough_row
     = Ok (Some (u "cough"), Some (u "ho"), Some (u "symptom"), decimal 9 1)
  /\ get_translation (u "cough")
       (terms (snd (import_csv [unparseable_row; cough_row] (u "import") empty)))
     = None
  /\ terms (snd (import_csv [unparseable_row; cough_row] (u "import") empty))
     = [].
Proof. repeat split; vm_compute; reflexivity. Qed.

(** C8 at a file whose second row has an unparseable confidence: the first
    row is imported, the third is not. *)
Lemma import_csv_rows_run :
  Forall readable [flu_row]
  /\ snd (import_csv ([flu_row] ++ unparseable_row :: [cough_row])
            (u "import") empty)
     = fold_left (import_one (u "import")) [flu_row] empty.
Proof.
  assert (H : Forall readable [flu_row]).
  { constructor; [|constructor]. eexists. vm_compute. reflexivity. }
  split; [exact H|].
  destruct (import_csv_rows [flu_row] (u "import") empty H) as (_ & Hstop & _).
  apply (Hstop unparseable_row ValueError [cough_row]).
  vm_compute. reflexivity.
Defined.

Example import_stops_at_bad_row :
  keys (terms (snd (import_csv [flu_row; unparseable_row; cough_row]
                      (u "import") empty)))
  = [u "flu"].
Proof. vm_compute. reflexivity. Qed.

(** C5 fails on the code: the diacritic check never fires, for any text and
    whatever the built-ins do; so ["đau"], which has the letter [đ] and no
    other marked letter, is accepted with confidence 1.0 and no issue. *)
Theorem diacritic_check_never_fires :
  (forall (R : Runtime) (text : str), _has_missing_diacritics text = false)
  /\ _has_missing_diacritics (u "đau") = false
  /\ validate_translation (u "pain") (u "đau") []
     = Ok {| valid := true; issues := []; confidence := of_int 1;
             suggestions := []; similar_terms := None |}.
Proof.
  split; [intros R0 text; apply has_missing_diacritics_never|].
  split; vm_compute; reflexivity.
Qed.

(** C6 fails on the code: ["Ốm"] is not empty, has no whitespace at either
    end and no double space, and is made of a capital diacritic letter and
    an ASCII letter; [_check_formatting] rejects it, and so does it every
    text with a capital diacritic letter other than [Đ]. *)
Theorem capital_diacritic_letter_rejected :
  u "Ốm" = [0x1ED0; 0x6D]%N
  /\ strip (u "Ốm") = u "Ốm"
  /\ contains2 0x20%N 0x20%N (u "Ốm") = false
  /\ forallb allowed_both_cases (u "Ốm") = true
  /\ _check_formatting (u "Ốm") = false
  /\ validate_translation (u "sick") (u "Ốm") []
     = Ok {| valid := false; issues := [u "Incorrect formatting"];
             confidence := fmul (of_int 1) (decimal 9 1);
             suggestions := []; similar_terms := None |}
  /\ (forall (text : str) (c : codepoint),
        In c text -> mem c capital_letters = true -> c <> 0x110%N ->
        _check_formatting text = false).
Proof.
  repeat split; try (vm_compute; reflexivity).
  apply check_formatting_capital.
Qed.

(** The formatting examples of the spec. *)
Example formatting_examples :
  _check_formatting (u "  double  space  ") = false
  /\ _check_formatting (u "normal text") = true
  /\ _check_formatting (u "Đau đầu") = true
  /\ _check_formatting [] = false.
Proof. repeat split; vm_compute; reflexivity. Qed.

(** C7 at the example of the spec: ["fever"] is stored as ["sốt"] and
    ["sot"] is proposed. *)
Lemma validate_translation_checks_run :
  keys_normalized (terms sample)
  /\ exists r,
       validate_translation (u "fever") (u "sot") (terms sample) = Ok r
       /\ valid r = false
       /\ issues r = [u "Translation differs from dictionary"]
       /\ confidence r = decimal 7 1.
Proof.
  assert (Hk : keys_normalized (terms sample))
    by (apply keys_normalizedb_ok; vm_compute; reflexivity).
  split; [exact Hk|].
  destruct (validate_translation_checks (u "fever") (u "sot") (terms sample) Hk)
    as (r & Hr & Hc & Hv & Hi & _).
  exists r. split; [exact Hr|]. rewrite Hc, Hv, Hi.
  repeat split; vm_compute; reflexivity.
Defined.

(** Two failed checks: 1.0 * 0.7 * 0.9 for a stored term and a badly
    formatted proposal, with the stored term itself as the similar one. *)
Example validate_two_failures :
  validate_translation (u "fever") (u " sot") (terms sample)
  = Ok {| valid := false;
          issues := [u "Translation differs from dictionary";
                     u "Incorrect formatting"];
          confidence := fmul (fmul (of_int 1) (decimal 7 1)) (decimal 9 1);
          suggestions := [u "sốt"];
          similar_terms :=
            Some [ {| st_english := u "fever";
                      st_vietnamese := u "sốt";
                      st_similarity := of_int 1 |} ] |}.
Proof. vm_compute. reflexivity. Qed.

(** C10 with CPython's lower-casing, at the store of the examples. *)
Lemma similar_terms_are_stored_run :
  keys_normalized (terms sample)
  /\ (exists r,
        validate_translation (u "hadache") (u "đau đầu") (terms sample) = Ok r)
  /\ (exists l,
        suggest_improvements (u "hadache") (u "đau đầu") (terms sample) = Ok l).
Proof.
  destruct (similar_terms_are_stored CPythonFacts.normalize_latin_idem)
    as [Hreach Hsafe].
  assert (Hk := Hreach sample sample_reachable).
  split; [exact Hk|].
  destruct (Hsafe (terms sample) Hk) as (_ & Hv & Hs).
  split; [apply Hv|apply Hs].
Defined.

(** On a store that was not built by the operations, with a key that is
    not normalized, the enrichment subscripts [None]. *)
Example unnormalized_key_raises :
  validate_translation (u "fever") (u "sốt")
    [(u "Fever", fresh_term (u "sốt") None (u "manual") (of_int 1) 0)]
  = Raise TypeError.
Proof. vm_compute. reflexivity. Qed.

End Runs.

(* ================================================================== *)
(** ** Further properties of the store *)
(* ================================================================== *)

Section MoreStore.
Context {R : Runtime}.

Lemma dict_set_records (P : Term -> Prop) (k : str) (t : Term) (d : dict) :
  P t -> Forall (fun kt => P (snd kt)) d ->
  Forall (fun kt => P (snd kt)) (dict_set k t d).
Proof.
  intros Ht Hd. rewrite Forall_forall in *.
  intros p Hp. destruct (In_dict_set _ _ _ _ Hp) as [->|H]; auto.
Qed.

Lemma dict_get_records (P : Term -> Prop) (k : str) (t : Term) (d : dict) :
  Forall (fun kt => P (snd kt)) d -> dict_get k d = Some t -> P t.
Proof.
  intros Hd Hk. rewrite Forall_forall in Hd.
  exact (Hd (k, t) (dict_get_In _ _ _ Hk)).
Qed.

(** A property of records that [add_term] establishes and [update_term]
    keeps is kept by the three operations. *)
Section Records.
Variable P : Term -> Prop.
Hypothesis P_fresh : forall V cat src conf n, P (fresh_term V cat src conf n).
Hypothesis P_updated :
  forall t V src conf n, P t -> P (updated_term t V src conf n).

Let all (d : dict) : Prop := Forall (fun kt => P (snd kt)) d.

Lemma add_term_records (s : state) (e v cat : option str) (src : str)
    (conf : float) :
  all (terms s) -> all (terms (snd (add_term e v cat src conf s))).
Proof.
  intros H. destruct e as [e|]; [|exact H].
  destruct v as [v|]; [|exact H].
  rewrite add_term_eq. simpl. now apply dict_set_records.
Qed.

Lemma update_term_records (s : state) (K V src : str) (conf : float) :
  all (terms s) -> all (terms (snd (update_term K V src conf s))).
Proof.
  intros H. destruct (dict_get (normalize K) (terms s)) as [t|] eqn:E.
  - rewrite (update_term_eq _ _ _ _ _ _ E). simpl.
    apply dict_set_records; [|exact H].
    apply P_updated. exact (dict_get_records P _ _ _ H E).
  - now rewrite (update_term_missing _ _ _ _ _ E).
Qed.

Lemma import_csv_records (rows : list row) (src : str) (s : state) :
  all (terms s) -> all (terms (snd (import_csv rows src s))).
Proof.
  rewrite import_csv_snd. revert s.
  induction rows as [|r rows IH]; intros s H; [exact H|].
  rewrite import_rows_step.
  destruct (row_args r) as [[[[e v] c] x]|ex] eqn:E; [|exact H].
  apply IH. unfold import_one. rewrite E. now apply add_term_records.
Qed.

Lemma reachable_records (s : state) : reachable s -> all (terms s).
Proof.
  induction 1 as [n|s e v cat src conf _ IH|s e v src conf _ IH
                  |s rows src _ IH].
  - constructor.
  - now apply add_term_records.
  - now apply update_term_records.
  - now apply import_csv_records.
Qed.

End Records.

(** X1.  In every state reached from an empty store, no stored
    translation, current or in a history, has whitespace at either end:
    [add_term] and [update_term] trim what they store. *)
Theorem reachable_trimmed (s : state) :
  reachable s -> Forall (fun kt => trimmed (snd kt)) (terms s).
Proof.
  apply reachable_records.
  - intros V cat src conf n. split; simpl.
    + apply strip_idem.
    + constructor; [apply strip_idem|constructor].
  - intros t V src conf n [Hv Hvs]. split; simpl.
    + apply strip_idem.
    + apply Forall_app. split; [exact Hvs|].
      constructor; [apply strip_idem|constructor].
Qed.

(** *** What an update leaves alone *)

Lemma update_term_keys (s : state) (K V src : str) (conf : float) :
  keys (terms (snd (update_term K V src conf s))) = keys (terms s).
Proof.
  destruct (dict_get (normalize K) (terms s)) as [t|] eqn:E.
  - rewrite (update_term_eq _ _ _ _ _ _ E). simpl.
    rewrite keys_dict_set. unfold dict_mem. now rewrite E.
  - now rewrite (update_term_missing _ _ _ _ _ E).
Qed.

(** X2.  [update_term], found or not, leaves the key set and its order as
    they are, leaves the record of every other key as it is, and changes
    no result of [get_similar_terms]. *)
Theorem update_term_frame (s : state) (K V src : str) (conf : float) :
  let s' := snd (update_term K V src conf s) in
  keys (terms s') = keys (terms s)
  /\ (forall k, k <> normalize K ->
        dict_get k (terms s') = dict_get k (terms s))
  /\ (forall E, normalize E <> normalize K ->
        get_translation E (terms s') = get_translation E (terms s))
  /\ (forall term n,
        get_similar_terms term n (terms s')
        = get_similar_terms term n (terms s)).
Proof.
  cbv zeta.
  assert (Hother : forall k, k <> normalize K ->
            dict_get k (terms (snd (update_term K V src conf s)))
            = dict_get k (terms s)).
  { intros k Hk.
    destruct (dict_get (normalize K) (terms s)) as [t|] eqn:E.
    - rewrite (update_term_eq _ _ _ _ _ _ E). simpl.
      now apply dict_get_set_other.
    - now rewrite (update_term_missing _ _ _ _ _ E). }
  split; [apply update_term_keys|]. split; [exact Hother|]. split.
  - intros E HE. unfold get_translation. now apply Hother.
  - intros term n. unfold get_similar_terms.
    now rewrite update_term_keys.
Qed.

(** *** Keys are never removed *)

Lemma keys_dict_set_incl (k : str) (t : Term) (d : dict) :
  incl (keys d) (keys (dict_set k t d)).
Proof.
  rewrite keys_dict_set. destruct (dict_mem k d);
    [apply incl_refl|apply incl_appl, incl_refl].
Qed.

Lemma add_term_keys_incl (s : state) (e v cat : option str) (src : str)
    (conf : float) :
  incl (keys (terms s)) (keys (terms (snd (add_term e v cat src conf s)))).
Proof.
  destruct e as [e|]; [|apply incl_refl].
  destruct v as [v|]; [|apply incl_refl].
  rewrite add_term_eq. simpl. apply keys_dict_set_incl.
Qed.

Lemma import_csv_keys_incl (rows : list row) (src : str) (s : state) :
  incl (keys (terms s)) (keys (terms (snd (import_csv rows src s)))).
Proof.
  rewrite import_csv_snd. revert s.
  induction rows as [|r rows IH]; intros s; [apply incl_refl|].
  rewrite import_rows_step.
  destruct (row_args r) as [[[[e v] c] x]|ex] eqn:E; [|apply incl_refl].
  eapply incl_tran; [|apply IH]. unfold import_one. rewrite E.
  apply add_term_keys_incl.
Qed.

(** X3.  No operation removes a term: whatever calls of [add_term],
    [update_term] and [import_csv] lead from [s] to [s'], every key of [s]
    is a key of [s'] and [get_translation] still finds a record for it. *)
Theorem evolves_keeps_keys (s s' : state) :
  evolves s s' ->
  incl (keys (terms s)) (keys (terms s'))
  /\ (forall k t, dict_get k (terms s) = Some t ->
        exists t', dict_get k (terms s') = Some t').
Proof.
  intros H.
  assert (Hincl : incl (keys (terms s)) (keys (terms s'))).
  { induction H as [|s' e v cat src conf _ IH|s' e v src conf _ IH
                    |s' rows src _ IH].
    - apply incl_refl.
    - eapply incl_tran; [exact IH|apply add_term_keys_incl].
    - now rewrite update_term_keys.
    - eapply incl_tran; [exact IH|apply import_csv_keys_incl]. }
  split; [exact Hincl|].
  intros k t Hk. apply In_keys_dict_get, Hincl.
  apply dict_get_In in Hk. now apply (in_map fst) in Hk.
Qed.

(** *** Any number of updates *)

Lemma last_cons {A} (a d : A) (l : list A) : last (a :: l) d = last l a.
Proof.
  revert a d. induction l as [|b l IH]; intros a d; [reflexivity|].
  change (last (a :: b :: l) d) with (last (b :: l) d).
  now rewrite !IH.
Qed.

Lemma apply_updates_history (K : str) (us : list (str * str * float))
    (s : state) (t : Term) :
  dict_get (normalize K) (terms s) = Some t ->
  exists t',
    dict_get (normalize K) (terms (apply_updates K us s)) = Some t'
    /\ map ver_vietnamese (versions t')
       = map ver_vietnamese (versions t)
         ++ map (fun p : str * str * float => strip (fst (fst p))) us
    /\ (exists es, versions t' = versions t ++ es)
    /\ vietnamese t'
       = last (map (fun p : str * str * float => strip (fst (fst p))) us)
              (vietnamese t)
    /\ added_date t' = added_date t
    /\ category t' = category t.
Proof.
  revert s t. induction us as [|[[V src] conf] us IH]; intros s t H.
  - exists t. simpl. rewrite app_nil_r. repeat split; auto.
    exists []. now rewrite app_nil_r.
  - unfold apply_updates. simpl fold_left.
    rewrite (update_term_eq _ _ _ _ _ _ H). simpl snd.
    set (t1 := updated_term t V src conf (time s)).
    set (s1 := {| terms := dict_set (normalize K) t1 (terms s);
                  time := S (S (time s)) |}).
    destruct (IH s1 t1) as (t' & Hget & Hmap & [es Hes] & Hcur & Hadd & Hcat).
    { apply dict_get_set_same. }
    exists t'. split; [exact Hget|].
    split.
    { rewrite Hmap. simpl. rewrite map_app, <- app_assoc. reflexivity. }
    split.
    { exists (entry V src conf (time s) :: es). rewrite Hes. simpl.
      now rewrite <- app_assoc. }
    split.
    { rewrite Hcur. simpl map. now rewrite last_cons. }
    split; [rewrite Hadd|rewrite Hcat]; reflexivity.
Qed.

(** X4.  After [add_term(K, V0)] and then any number of [update_term] calls
    for [K], the history holds one entry for [V0] and one per update, in
    the order of the calls, each translation trimmed; the current
    translation is the last one given, and the creation time and the
    category are still those of [add_term]. *)
Theorem add_then_updates (s : state) (K V0 : str) (cat : option str)
    (src0 : str) (c0 : float) (us : list (str * str * float)) :
  let s1 := snd (add_term (Some K) (Some V0) cat src0 c0 s) in
  let s2 := apply_updates K us s1 in
  let Vs := map (fun p : str * str * float => strip (fst (fst p))) us in
  exists t,
    get_translation K (terms s2) = Some t
    /\ map ver_vietnamese (versions t) = strip V0 :: Vs
    /\ List.length (versions t) = S (List.length us)
    /\ vietnamese t = last Vs (strip V0)
    /\ added_date t = now (time s)
    /\ category t = cat.
Proof.
  cbv zeta. rewrite add_term_eq. simpl snd.
  set (t0 := fresh_term V0 cat src0 c0 (time s)).
  set (s1 := {| terms := dict_set (normalize K) t0 (terms s);
                time := S (S (S (time s))) |}).
  destruct (apply_updates_history K us s1 t0)
    as (t & Hget & Hmap & _ & Hcur & Hadd & Hcat).
  { apply dict_get_set_same. }
  exists t. split; [exact Hget|]. split; [exact Hmap|]. split.
  - rewrite <- (length_map ver_vietnamese), Hmap. simpl.
    now rewrite length_map.
  - split; [exact Hcur|]. split; [exact Hadd|exact Hcat].
Qed.

(** *** Rows with the same key *)

Lemma import_one_other (src : str) (s : state) (r : row) (k : str) :
  ~ writes k r -> dict_get k (terms (import_one src s r)) = dict_get k (terms s).
Proof.
  intros Hw. unfold import_one.
  destruct (row_args r) as [[[[e v] c] x]|ex] eqn:E; [|reflexivity].
  destruct e as [e|]; [|reflexivity].
  destruct v as [v|]; [|now rewrite add_term_None_r].
  rewrite add_term_eq. simpl. apply dict_get_set_other.
  intros ->. apply Hw. exists e, v, c, x. now split.
Qed.

Lemma fold_import_other (src : str) (rows : list row) (s : state) (k : str) :
  Forall (fun r => ~ writes k r) rows ->
  dict_get k (terms (fold_left (import_one src) rows s))
  = dict_get k (terms s).
Proof.
  revert s. induction rows as [|r rows IH]; intros s H; [reflexivity|].
  inversion H; subst. simpl. rewrite IH by assumption.
  now apply import_one_other.
Qed.

(** X5.  When every row of the file is readable, the record [import_csv]
    leaves for a term is the one of the last row that names it: it has
    that row's translation (trimmed), category and confidence, the source
    of the import and a history of one entry; what earlier rows, or the
    store before the import, held for the term is gone.  A term no row
    names keeps the record it had. *)
Theorem import_csv_last_row_wins (before after : list row) (r : row)
    (src : str) (s : state) (E V : str) (c : option str) (x : float) :
  Forall readable (before ++ r :: after) ->
  row_args r = Ok (Some E, Some V, c, x) ->
  Forall (fun r' => ~ writes (normalize E) r') after ->
  let s' := snd (import_csv (before ++ r :: after) src s) in
  (exists t,
      get_translation E (terms s') = Some t
      /\ vietnamese t = strip V
      /\ category t = c
      /\ MedicalDictionary.confidence t = x
      /\ source t = src
      /\ map ver_vietnamese (versions t) = [strip V])
  /\ (forall k, Forall (fun r' => ~ writes k r') (before ++ r :: after) ->
        dict_get k (terms s') = dict_get k (terms s)).
Proof.
  intros Hread Hr Hafter. cbv zeta.
  rewrite import_csv_snd, (import_rows_readable _ _ _ Hread).
  split.
  - rewrite fold_left_app. simpl fold_left.
    unfold get_translation. fold (normalize E).
    rewrite fold_import_other by exact Hafter.
    unfold import_one at 1. rewrite Hr, add_term_eq. simpl terms.
    rewrite dict_get_set_same. eexists. split; [reflexivity|].
    simpl. repeat split.
  - intros k Hk. now apply fold_import_other.
Qed.

End MoreStore.

(* ================================================================== *)
(** ** Further properties of the validator *)
(* ================================================================== *)

Section MoreValidation.
Context {R : Runtime}.

Lemma validate_fields (english vietnamese : str) (d : dict) (r : Results) :
  validate_translation english vietnamese d = Ok r ->
  valid r = valid (checks english vietnamese d)
  /\ issues r = issues (checks english vietnamese d)
  /\ confidence r = confidence (checks english vietnamese d)
  /\ suggestions r = suggestions (checks english vietnamese d).
Proof.
  unfold validate_translation.
  destruct (get_similar_terms english 5 d) as [|p l].
  - intros [= <-]. auto.
  - destruct (similar_entries (p :: l) d); [|discriminate].
    intros [= <-]. simpl. auto.
Qed.

Lemma validate_returns (english vietnamese : str) (d : dict) :
  keys_normalized d ->
  exists r, validate_translation english vietnamese d = Ok r.
Proof.
  intros Hn. unfold validate_translation.
  destruct (get_similar_terms english 5 d) as [|p l] eqn:E;
    [eexists; reflexivity|].
  destruct (similar_entries_ok d (p :: l)) as (es & Hes & _).
  { intros k sc Hin. rewrite <- E in Hin.
    destruct (similar_found d english 5 k sc Hn Hin) as (t & _ & Ht).
    now exists t. }
  rewrite Hes. eexists. reflexivity.
Qed.

(** X6.  Whatever [validate_translation] returns, the verdict is [True]
    exactly when no issue is listed and exactly when the confidence is
    1.0; the confidence is one of 1.0, 0.7, 0.9 and 0.7 * 0.9; the issue
    ["Missing diacritical marks"] is never listed; and for a term that is
    not in the dictionary the verdict is that of [_check_formatting] and no
    suggestion is made. *)
Theorem validate_translation_outcomes (english vietnamese : str) (d : dict)
    (r : Results) :
  validate_translation english vietnamese d = Ok r ->
  (valid r = true <-> issues r = [])
  /\ (valid r = true <-> confidence r = of_int 1)
  /\ In (confidence r)
        [of_int 1; decimal 7 1; decimal 9 1; fmul (decimal 7 1) (decimal 9 1)]
  /\ ~ In (u "Missing diacritical marks") (issues r)
  /\ (get_translation english d = None ->
      valid r = _check_formatting vietnamese /\ suggestions r = []).
Proof.
  intros H.
  destruct (validate_fields _ _ _ _ H) as (Hv & Hi & Hc & Hs).
  destruct (checks_spec english vietnamese d) as (Cc & Cv & Ci & Cs & _).
  rewrite Hv, Hi, Hc, Hs, Cc, Cv, Ci, Cs.
  rewrite (has_missing_diacritics_never vietnamese).
  unfold differs.
  destruct (get_translation english d) as [t|];
    [destruct (negb (eqb (lower (MedicalDictionary.vietnamese t))
                         (lower vietnamese)))|];
    destruct (_check_formatting vietnamese);
    vm_compute; intuition (try discriminate; try congruence).
Qed.

(** X7.  A term validates against the translation just stored for it: after
    [add_term(E, V)] on a store with normalized keys, [validate_translation]
    of [E] with [V] trimmed returns, makes no suggestion, and its verdict is
    that of the formatting check alone; a [V] that passes the formatting
    check is stored as it is and is valid. *)
Theorem validate_after_add_term (s : state) (E V : str) (cat : option str)
    (src : str) (conf : float) :
  keys_normalized (terms s) ->
  normalize (normalize E) = normalize E ->
  let d := terms (snd (add_term (Some E) (Some V) cat src conf s)) in
  (exists r,
      validate_translation E (strip V) d = Ok r
      /\ valid r = _check_formatting (strip V)
      /\ suggestions r = []
      /\ issues r = (if _check_formatting (strip V) then []
                     else [u "Incorrect formatting"]))
  /\ (_check_formatting V = true ->
      exists r, validate_translation E V d = Ok r
                /\ valid r = true /\ issues r = []
                /\ confidence r = of_int 1).
Proof.
  intros Hn HE. cbv zeta. rewrite add_term_eq. simpl snd. simpl terms.
  set (t := fresh_term V cat src conf (time s)).
  set (d := dict_set (normalize E) t (terms s)).
  assert (Hd : keys_normalized d) by now apply dict_set_keys_normalized.
  assert (Hget : get_translation E d = Some t)
    by (unfold get_translation; apply dict_get_set_same).
  assert (Hmain : exists r,
      validate_translation E (strip V) d = Ok r
      /\ valid r = _check_formatting (strip V)
      /\ suggestions r = []
      /\ issues r = (if _check_formatting (strip V) then []
                     else [u "Incorrect formatting"])
      /\ confidence r = (if _check_formatting (strip V) then of_int 1
                         else fmul (of_int 1) (decimal 9 1))).
  { destruct (validate_returns E (strip V) d Hd) as [r Hr].
    exists r. split; [exact Hr|].
    destruct (validate_fields _ _ _ _ Hr) as (Hv & Hi & Hc & Hs).
    destruct (checks_spec E (strip V) d) as (Cc & Cv & Ci & Cs & _).
    rewrite Hv, Hi, Hc, Hs, Cc, Cv, Ci, Cs.
    rewrite (has_missing_diacritics_never (strip V)).
    unfold differs. rewrite Hget. simpl MedicalDictionary.vietnamese.
    rewrite eqb_refl. simpl negb.
    destruct (_check_formatting (strip V)); simpl; auto. }
  split.
  - destruct Hmain as (r & Hr & Hv & Hs & Hi & _). exists r. auto.
  - intros Hf.
    assert (HV : strip V = V) by (apply check_formatting_spec in Hf; tauto).
    rewrite HV in Hmain. rewrite Hf in Hmain.
    destruct Hmain as (r & Hr & Hv & _ & Hi & Hc). exists r. auto.
Qed.

Lemma related_lines_length (d : dict) (l : list (str * float))
    (ls : list str) :
  related_lines l d = Ok ls -> List.length ls = List.length l.
Proof.
  revert ls. induction l as [|[k sc] l IH]; intros ls; simpl.
  - now intros [= <-].
  - destruct (get_translation k d); [|discriminate].
    destruct (related_lines l d) as [ls'|]; [|discriminate].
    intros [= <-]. simpl. now rewrite (IH ls').
Qed.

(** X8.  On a store with normalized keys [suggest_improvements] returns a
    list with one line if the stored translation is not the proposal
    letter for letter, one line if the formatting check fails, and, when
    [get_similar_terms] finds something, a header and one line for each of
    the three best matches at most; so it has at most six lines, the line
    on diacritical marks never being one, and it is empty exactly when the
    three findings are. *)
Theorem suggest_improvements_shape (english vietnamese : str) (d : dict) :
  keys_normalized d ->
  let similar := get_similar_terms english 5 d in
  exists l,
    suggest_improvements english vietnamese d = Ok l
    /\ List.length l
       = (if differs_exactly english vietnamese d then 1 else 0)
         + (if _check_formatting vietnamese then 0 else 1)
         + (match similar with
            | [] => 0
            | _ :: _ => 1 + Nat.min 3 (List.length similar)
            end)
    /\ List.length l <= 6
    /\ (l = [] <-> differs_exactly english vietnamese d = false
                   /\ _check_formatting vietnamese = true
                   /\ similar = []).
Proof.
  intros Hn similar.
  assert (Hex : exists l,
    suggest_improvements english vietnamese d = Ok l
    /\ List.length l
       = (if differs_exactly english vietnamese d then 1 else 0)
         + (if _check_formatting vietnamese then 0 else 1)
         + (match similar with
            | [] => 0
            | _ :: _ => 1 + Nat.min 3 (List.length similar)
            end)).
  { unfold suggest_improvements, differs_exactly. fold similar.
    rewrite (has_missing_diacritics_never vietnamese).
    destruct similar as [|p l] eqn:E.
    - eexists. split; [reflexivity|].
      destruct (get_translation english d) as [t|];
        [destruct (negb (eqb (MedicalDictionary.vietnamese t) vietnamese))|];
        destruct (_check_formatting vietnamese); reflexivity.
    - destruct (related_lines_ok d (firstn 3 (p :: l))) as (ls & Hls).
      { intros k sc Hin. apply firstn_In in Hin.
        unfold similar in E. rewrite <- E in Hin.
        destruct (similar_found d english 5 k sc Hn Hin) as (t & _ & Ht).
        now exists t. }
      rewrite Hls. eexists. split; [reflexivity|].
      apply related_lines_length in Hls. rewrite length_firstn in Hls.
      destruct (get_translation english d) as [t|];
        [destruct (negb (eqb (MedicalDictionary.vietnamese t) vietnamese))|];
        destruct (_check_formatting vietnamese);
        cbn [negb]; cbv iota; rewrite ?length_app;
        cbn [List.length] in *; lia. }
  destruct Hex as (l & Hl & Hlen). exists l.
  split; [exact Hl|]. split; [exact Hlen|]. split.
  - rewrite Hlen.
    destruct (differs_exactly english vietnamese d),
             (_check_formatting vietnamese), similar;
      cbn [List.length]; lia.
  - split.
    + intros ->. simpl in Hlen.
      destruct (differs_exactly english vietnamese d),
               (_check_formatting vietnamese), similar;
        simpl in Hlen; try discriminate; auto.
    + intros (H1 & H2 & H3). rewrite H1, H2, H3 in Hlen.
      now destruct l.
Qed.

(** X9.  The two advisory passes disagree on letter case: for a stored
    translation that equals the proposal once both are lower-cased but not
    letter for letter, [validate_translation] raises no issue on the
    translation and suggests nothing, while [suggest_improvements] opens
    with the advice to use the stored translation. *)
Theorem case_only_difference (english vietnamese : str) (d : dict)
    (t : Term) :
  keys_normalized d ->
  get_translation english d = Some t ->
  lower (MedicalDictionary.vietnamese t) = lower vietnamese ->
  MedicalDictionary.vietnamese t <> vietnamese ->
  exists r l,
    validate_translation english vietnamese d = Ok r
    /\ suggestions r = []
    /\ valid r = _check_formatting vietnamese
    /\ suggest_improvements english vietnamese d = Ok l
    /\ hd_error l
       = Some (u "Consider using established translation: "
               ++ MedicalDictionary.vietnamese t).
Proof.
  intros Hn Hget Hlow Hne.
  destruct (validate_returns english vietnamese d Hn) as [r Hr].
  destruct (validate_fields _ _ _ _ Hr) as (Hv & _ & _ & Hs).
  destruct (checks_spec english vietnamese d) as (_ & Cv & _ & Cs & _).
  assert (Hd : differs english vietnamese d = false).
  { unfold differs. rewrite Hget, Hlow, eqb_refl. reflexivity. }
  rewrite Hd, (has_missing_diacritics_never vietnamese) in Cv.
  rewrite Hget, Hd in Cs. simpl in Cv. rewrite negb_involutive in Cv.
  apply eqb_neq in Hne.
  assert (Hl : exists l, suggest_improvements english vietnamese d = Ok l
                         /\ hd_error l
                            = Some (u "Consider using established translation: "
                                    ++ MedicalDictionary.vietnamese t)).
  { unfold suggest_improvements. rewrite Hget, Hne. simpl negb. cbv iota.
    rewrite (has_missing_diacritics_never vietnamese).
    destruct (_check_formatting vietnamese); simpl negb; cbv iota;
    (destruct (get_similar_terms english 5 d) as [|p l0] eqn:E;
     [ eexists; split; reflexivity
     | destruct (related_lines_ok d (firstn 3 (p :: l0))) as (ls & Hls);
       [ intros k sc Hin; apply firstn_In in Hin; rewrite <- E in Hin;
         destruct (similar_found d english 5 k sc Hn Hin) as (t' & _ & Ht);
         now exists t'
       | rewrite Hls; eexists; split; reflexivity ] ]). }
  destruct Hl as (l & Hl & Hhd).
  exists r, l. rewrite Hs, Hv, Cs, Cv. auto.
Qed.

End MoreValidation.

(* ================================================================== *)
(** ** Export and import *)
(* ================================================================== *)

Section RoundTrip.
Context {R : Runtime}.

Lemma dict_mem_keys (k : str) (d : dict) :
  dict_mem k d = false <-> ~ In k (keys d).
Proof.
  unfold dict_mem. split.
  - intros H Hin. destruct (In_keys_dict_get k d Hin) as [t Ht].
    now rewrite Ht in H.
  - intros H. destruct (dict_get k d) as [t|] eqn:E; [|reflexivity].
    exfalso. apply H. apply dict_get_In in E. now apply (in_map fst) in E.
Qed.

Lemma dict_set_NoDup (k : str) (t : Term) (d : dict) :
  NoDup (keys d) -> NoDup (keys (dict_set k t d)).
Proof.
  intros H. rewrite keys_dict_set.
  destruct (dict_mem k d) eqn:E; [exact H|].
  apply dict_mem_keys in E.
  apply NoDup_app; [exact H|repeat constructor; intros []|].
  intros x Hx [<-|[]]. contradiction.
Qed.

Lemma add_term_NoDup (s : state) (e v cat : option str) (src : str)
    (conf : float) :
  NoDup (keys (terms s)) ->
  NoDup (keys (terms (snd (add_term e v cat src conf s)))).
Proof.
  intros H. destruct e as [e|]; [|exact H].
  destruct v as [v|]; [|exact H].
  rewrite add_term_eq. simpl. now apply dict_set_NoDup.
Qed.

Lemma import_csv_NoDup (rows : list row) (src : str) (s : state) :
  NoDup (keys (terms s)) ->
  NoDup (keys (terms (snd (import_csv rows src s)))).
Proof.
  rewrite import_csv_snd. revert s.
  induction rows as [|r rows IH]; intros s H; [exact H|].
  rewrite import_rows_step.
  destruct (row_args r) as [[[[e v] c] x]|ex] eqn:E; [|exact H].
  apply IH. unfold import_one. rewrite E. now apply add_term_NoDup.
Qed.

Lemma reachable_NoDup (s : state) : reachable s -> NoDup (keys (terms s)).
Proof.
  induction 1 as [n|s e v cat src conf _ IH|s e v src conf _ IH
                  |s rows src _ IH].
  - constructor.
  - now apply add_term_NoDup.
  - now rewrite update_term_keys.
  - now apply import_csv_NoDup.
Qed.

Lemma matches_keys_NoDup (q : str) (ks : list str) :
  NoDup ks -> NoDup (map fst (matches q ks)).
Proof.
  induction 1 as [|k ks Hk Hks IH]; simpl; [constructor|].
  destruct (flt threshold (ratio q k)); [|exact IH].
  simpl. constructor; [|exact IH].
  intros Hin. apply Hk. apply in_map_iff in Hin as ([k' sc] & <- & Hin).
  now apply matches_In in Hin.
Qed.

Lemma firstn_NoDup {A} (n : nat) (l : list A) : NoDup l -> NoDup (firstn n l).
Proof.
  intros H. rewrite <- (firstn_skipn n l) in H.
  now apply NoDup_app_remove_r in H.
Qed.

(** X10.  In a state reached from an empty store no key is stored twice,
    and no result of [get_similar_terms] names a key twice, whatever [n]
    is. *)
Theorem similar_terms_distinct (s : state) :
  reachable s ->
  NoDup (keys (terms s))
  /\ forall term n, NoDup (map fst (get_similar_terms term n (terms s))).
Proof.
  intros H. assert (Hk := reachable_NoDup s H). split; [exact Hk|].
  intros term n. unfold get_similar_terms, slice_to.
  assert (Hs : NoDup (map fst (sorted_desc
                        (matches (strip (lower term)) (keys (terms s)))))).
  { apply (Permutation_NoDup
             (Permutation_map fst (Permutation_sym (sorted_desc_perm _)))).
    now apply matches_keys_NoDup. }
  destruct (0 <=? n)%Z; rewrite <- firstn_map; now apply firstn_NoDup.
Qed.

Lemma export_csv_lines (d : dict) : export_csv d = header :: map line d.
Proof.
  unfold export_csv, header. f_equal. apply map_ext. now intros [k t].
Qed.

(** The arguments [import_csv] builds from a row read back from the line
    exported for a term. *)
Lemma row_of_line (k : str) (t : Term) (r : row) :
  row_of header (line (k, t)) r ->
  row_args r
  = Ok (Some k, Some (vietnamese t), Some (category_text t),
        MedicalDictionary.confidence t).
Proof.
  unfold row_of, header, line. simpl combine. simpl fst. simpl snd.
  intros [H _].
  repeat match goal with
  | H : Forall2 _ (_ :: _) _ |- _ => inversion H; clear H; subst
  | H : Forall2 _ [] _ |- _ => inversion H; clear H; subst
  end.
  repeat match goal with
  | H : _ /\ _ |- _ => destruct H
  | H : exists _, _ |- _ => destruct H
  | p : (str * option str)%type |- _ => destruct p
  end.
  simpl in *. subst.
  match goal with
  | H : field_of _ ?c |- _ =>
      assert (Hc : c = category_text t)
        by (unfold category_text; destruct (category t); exact H);
      subst c
  end.
  match goal with
  | H : float_of_str _ = Some _ |- _ =>
      unfold row_args; cbn; rewrite H; reflexivity
  end.
Qed.

(** What importing the rows of the listed terms, all new to the store and
    with distinct normalized keys, does. *)
Lemma import_entries (src : str) (d : dict) (rows : list row) (s : state) :
  Forall2 (fun kt r => row_of header (line kt) r) d rows ->
  NoDup (keys (terms s) ++ keys d) ->
  Forall (fun k => normalize k = k) (keys d) ->
  let s' := fold_left (import_one src) rows s in
  keys (terms s') = keys (terms s) ++ keys d
  /\ (forall k t,
        dict_get k d = Some t ->
        exists t',
          dict_get k (terms s') = Some t'
          /\ vietnamese t' = strip (vietnamese t)
          /\ MedicalDictionary.confidence t' = MedicalDictionary.confidence t
          /\ category t' = Some (category_text t)
          /\ source t' = src
          /\ map ver_vietnamese (versions t') = [strip (vietnamese t)]).
Proof.
  intros H. revert s. induction H as [|[k t] r d rows Hr Hrows IH];
    intros s Hnd Hnorm; cbv zeta.
  - simpl. rewrite app_nil_r. split; [reflexivity|]. intros k t [=].
  - inversion Hnorm as [|? ? Hk Hnorm']; subst. simpl in Hk.
    simpl fold_left.
    set (t0 := fresh_term (vietnamese t) (Some (category_text t)) src
                 (MedicalDictionary.confidence t) (time s)).
    set (s1 := {| terms := dict_set k t0 (terms s);
                  time := S (S (S (time s))) |}).
    assert (Hstep : import_one src s r = s1).
    { unfold import_one.
      rewrite (row_of_line k t r Hr), add_term_eq. simpl snd.
      now rewrite Hk. }
    rewrite Hstep.
    assert (Hnew : ~ In k (keys (terms s))).
    { intros Hin. apply NoDup_app_remove_r in Hnd as Hs.
      simpl in Hnd. apply NoDup_remove_2 in Hnd. apply Hnd.
      apply in_or_app. now left. }
    assert (Hkeys1 : keys (terms s1) = keys (terms s) ++ [k]).
    { unfold s1. simpl terms. rewrite keys_dict_set.
      apply dict_mem_keys in Hnew. now rewrite Hnew. }
    assert (Hnd1 : NoDup (keys (terms s1) ++ keys d)).
    { rewrite Hkeys1, <- app_assoc. exact Hnd. }
    destruct (IH s1 Hnd1 Hnorm') as [Hkeys Hrec].
    split.
    + rewrite Hkeys, Hkeys1, <- app_assoc. reflexivity.
    + intros k0 t1 Hget. simpl in Hget.
      destruct (eqb k0 k) eqn:E.
      * apply eqb_eq in E. subst k0. injection Hget as <-.
        exists t0. split; [|simpl; repeat split].
        assert (Hfree : Forall (fun r' => ~ writes k r') rows).
        { clear - Hrows Hnd1 Hnorm' Hkeys1.
          assert (Hnotin : ~ In k (keys d)).
          { rewrite Hkeys1, <- app_assoc in Hnd1.
            apply NoDup_app_remove_l in Hnd1. simpl in Hnd1.
            now apply NoDup_cons_iff in Hnd1. }
          clear Hnd1 Hkeys1.
          induction Hrows as [|[k' t'] r' d rows Hr' _ IHr]; constructor.
          - intros (E & V & c & x & Hargs & HE).
            rewrite (row_of_line k' t' r' Hr') in Hargs.
            injection Hargs as <- _ _ _.
            inversion Hnorm' as [|? ? Hk' _]; subst. simpl in Hk'.
            apply Hnotin. left. simpl. congruence.
          - inversion Hnorm'; subst. apply IHr; [assumption|].
            intros Hin. apply Hnotin. now right. }
        rewrite (fold_import_other src rows s1 k Hfree).
        unfold s1. simpl terms. apply dict_get_set_same.
      * exact (Hrec k0 t1 Hget).
Qed.

(** X11.  Exporting a store reached from an empty one and importing the
    rows read back from that file into an empty store gives the same keys
    in the same order, and for every term the same current translation and
    confidence and its category (the empty text where the category was
    [None]); the source is the one given to [import_csv] and the history
    starts again with one entry.  Reading back is taken to return, for
    each line, the texts written and for the confidence a text that
    [float] reads as the number written. *)
Theorem export_import_round_trip (s0 : state) (rows : list row) (src : str)
    (n : nat) :
  reachable s0 ->
  (forall x : str, normalize (normalize x) = normalize x) ->
  read_back (export_csv (terms s0)) rows ->
  let s' := snd (import_csv rows src {| terms := []; time := n |}) in
  keys (terms s') = keys (terms s0)
  /\ (forall k t,
        dict_get k (terms s0) = Some t ->
        exists t',
          dict_get k (terms s') = Some t'
          /\ vietnamese t' = vietnamese t
          /\ MedicalDictionary.confidence t' = MedicalDictionary.confidence t
          /\ category t' = Some (category_text t)
          /\ source t' = src
          /\ map ver_vietnamese (versions t') = [vietnamese t]).
Proof.
  intros Hreach Hidem Hback. cbv zeta.
  rewrite export_csv_lines in Hback. unfold read_back in Hback.
  assert (Hrows : Forall2 (fun kt r => row_of header (line kt) r)
                          (terms s0) rows).
  { clear - Hback. revert rows Hback.
    induction (terms s0) as [|kt d IH]; intros rows H;
      inversion H; subst; constructor; auto. }
  assert (Hread : Forall readable rows).
  { clear - Hrows. induction Hrows as [|[k t] r d rows Hr _ IH];
      constructor; [|exact IH].
    eexists. exact (row_of_line k t r Hr). }
  rewrite import_csv_snd, (import_rows_readable _ _ _ Hread).
  destruct (import_entries src (terms s0) rows {| terms := []; time := n |}
              Hrows)
    as [Hkeys Hrec].
  { simpl. now apply reachable_NoDup. }
  { now apply reachable_keys_normalized. }
  split; [exact Hkeys|].
  intros k t Hget.
  destruct (Hrec k t Hget) as (t' & H1 & H2 & H3 & H4 & H5 & H6).
  assert (Htrim : strip (vietnamese t) = vietnamese t).
  { assert (Hall := reachable_records
                      (fun t => strip (vietnamese t) = vietnamese t)
                      (fun V cat src conf n => strip_idem V)
                      (fun t V src conf n _ => strip_idem V) s0 Hreach).
    exact (dict_get_records _ _ _ _ Hall Hget). }
  rewrite Htrim in H2, H6. exists t'. repeat split; assumption.
Qed.

End RoundTrip.

(* ================================================================== *)
(** ** When the validator raises *)
(* ================================================================== *)

Section Raises.
Context {R : Runtime}.

Lemma similar_entries_result (d : dict) (l : list (str * float)) :
  (exists es, similar_entries l d = Ok es
              /\ forall k sc, In (k, sc) l -> get_translation k d <> None)
  \/ (similar_entries l d = Raise TypeError
      /\ exists k sc, In (k, sc) l /\ get_translation k d = None).
Proof.
  induction l as [|[k sc] l IH]; simpl.
  - left. exists []. split; [reflexivity|]. intros k sc [].
  - destruct (get_translation k d) as [t|] eqn:E.
    + destruct IH as [(es & -> & Hall)|(-> & k' & sc' & Hin & Hnone)].
      * left. eexists. split; [reflexivity|].
        intros k0 sc0 [[= <- <-]|Hin]; [congruence|now apply (Hall k0 sc0)].
      * right. split; [reflexivity|]. exists k', sc'. auto.
    + right. split; [reflexivity|]. exists k, sc. auto.
Qed.

Lemma related_lines_result (d : dict) (l : list (str * float)) :
  (exists ls, related_lines l d = Ok ls
              /\ forall k sc, In (k, sc) l -> get_translation k d <> None)
  \/ (related_lines l d = Raise TypeError
      /\ exists k sc, In (k, sc) l /\ get_translation k d = None).
Proof.
  induction l as [|[k sc] l IH]; simpl.
  - left. exists []. split; [reflexivity|]. intros k sc [].
  - destruct (get_translation k d) as [t|] eqn:E.
    + destruct IH as [(ls & -> & Hall)|(-> & k' & sc' & Hin & Hnone)].
      * left. eexists. split; [reflexivity|].
        intros k0 sc0 [[= <- <-]|Hin]; [congruence|now apply (Hall k0 sc0)].
      * right. split; [reflexivity|]. exists k', sc'. auto.
    + right. split; [reflexivity|]. exists k, sc. auto.
Qed.

(** X12.  On any store, [validate_translation] either returns or raises
    [TypeError], and it raises exactly when a key that [get_similar_terms]
    returns for the term has no record under its normal form, which takes
    a key that is not normalized; [suggest_improvements] raises exactly
    when one of the first three such keys has none. *)
Theorem validator_raises (english vietnamese : str) (d : dict) :
  let similar := get_similar_terms english 5 d in
  ((exists r, validate_translation english vietnamese d = Ok r)
   \/ validate_translation english vietnamese d = Raise TypeError)
  /\ (validate_translation english vietnamese d = Raise TypeError
      <-> exists k sc, In (k, sc) similar /\ get_translation k d = None)
  /\ (suggest_improvements english vietnamese d = Raise TypeError
      <-> exists k sc, In (k, sc) (firstn 3 similar)
                       /\ get_translation k d = None)
  /\ (forall k sc, In (k, sc) similar -> get_translation k d = None ->
        normalize k <> k).
Proof.
  cbv zeta.
  assert (Hv : (exists r, validate_translation english vietnamese d = Ok r
                  /\ forall k sc, In (k, sc) (get_similar_terms english 5 d) ->
                                  get_translation k d <> None)
               \/ (validate_translation english vietnamese d = Raise TypeError
                   /\ exists k sc, In (k, sc) (get_similar_terms english 5 d)
                                   /\ get_translation k d = None)).
  { unfold validate_translation.
    destruct (get_similar_terms english 5 d) as [|p l] eqn:E.
    - left. eexists. split; [reflexivity|]. intros k sc [].
    - destruct (similar_entries_result d (p :: l))
        as [(es & -> & Hall)|(-> & Hex)].
      + left. eexists. split; [reflexivity|exact Hall].
      + right. split; [reflexivity|exact Hex]. }
  assert (Hs : (exists ls, suggest_improvements english vietnamese d = Ok ls
                  /\ forall k sc,
                       In (k, sc) (firstn 3 (get_similar_terms english 5 d)) ->
                       get_translation k d <> None)
               \/ (suggest_improvements english vietnamese d = Raise TypeError
                   /\ exists k sc,
                        In (k, sc) (firstn 3 (get_similar_terms english 5 d))
                        /\ get_translation k d = None)).
  { unfold suggest_improvements.
    destruct (get_similar_terms english 5 d) as [|p l] eqn:E.
    - left. eexists. split; [reflexivity|]. intros k sc [].
    - destruct (related_lines_result d (firstn 3 (p :: l)))
        as [(ls & -> & Hall)|(-> & Hex)].
      + left. eexists. split; [reflexivity|exact Hall].
      + right. split; [reflexivity|exact Hex]. }
  split; [|split; [|split]].
  - destruct Hv as [(r & Hr & _)|[Hr _]]; [left; now exists r|now right].
  - split.
    + intros Hr. destruct Hv as [(r & Hr' & _)|[_ Hex]]; [congruence|exact Hex].
    + intros (k & sc & Hin & Hnone).
      destruct Hv as [(r & _ & Hall)|[Hr _]]; [|exact Hr].
      now contradiction (Hall k sc Hin).
  - split.
    + intros Hr. destruct Hs as [(r & Hr' & _)|[_ Hex]]; [congruence|exact Hex].
    + intros (k & sc & Hin & Hnone).
      destruct Hs as [(r & _ & Hall)|[Hr _]]; [|exact Hr].
      now contradiction (Hall k sc Hin).
  - intros k sc Hin Hnone Hk.
    apply get_similar_terms_keys in Hin.
    destruct (In_keys_dict_get k d Hin) as [t Ht].
    unfold get_translation in Hnone. fold (normalize k) in Hnone.
    rewrite Hk in Hnone. congruence.
Qed.

End Raises.

(* ================================================================== *)
(** ** The further properties on concrete inputs *)
(* ================================================================== *)

Section MoreRuns.
#[local] Existing Instance CPython.runtime.

Lemma sample_keys_normalized : keys_normalized (terms sample).
Proof. apply keys_normalizedb_ok. vm_compute. reflexivity. Qed.

(** X1 at the store of the examples. *)
Lemma reachable_trimmed_run :
  reachable sample /\ Forall (fun kt => trimmed (snd kt)) (terms sample).
Proof.
  split; [exact sample_reachable|].
  exact (reachable_trimmed sample sample_reachable).
Defined.

Example update_keeps_other_terms :
  keys (terms fever_and_cough) = [u "fever"; u "cough"]
  /\ option_map vietnamese (get_translation (u "fever") (terms fever_and_cough))
     = Some (u "cơn sốt").
Proof. vm_compute. split; reflexivity. Qed.

Lemma fever_evolves : evolves fever_only fever_and_cough.
Proof.
  unfold fever_and_cough, run. cbv zeta.
  apply evolves_add_term, evolves_update_term, evolves_refl.
Qed.

(** X3 from the store with one term to the one with two. *)
Lemma evolves_keeps_keys_run :
  evolves fever_only fever_and_cough
  /\ incl (keys (terms fever_only)) (keys (terms fever_and_cough)).
Proof.
  split; [exact fever_evolves|].
  exact (proj1 (evolves_keeps_keys fever_only fever_and_cough fever_evolves)).
Defined.

(** X5 on a file that names ["fever"] in its first and third rows: the
    third row is the one that stays. *)
Lemma import_csv_last_row_wins_run :
  exists t,
    get_translation (u "fever")
      (terms (snd (import_csv repeated_rows (u "import") fever_only)))
    = Some t
    /\ vietnamese t = u "sốt"
    /\ MedicalDictionary.confidence t = decimal 9 1.
Proof.
  assert (Hread : Forall readable
            ([csv_row "Fever" "sot" "symptom" "0.5";
              csv_row "cough" "ho" "symptom" "1.0"]
             ++ csv_row "fever " " sốt " "symptom" "0.9"
             :: [csv_row "flu" "cúm" "disease" "0.8"])).
  { repeat (constructor; [eexists; vm_compute; reflexivity|]). constructor. }
  assert (Hr : row_args (csv_row "fever " " sốt " "symptom" "0.9")
               = Ok (Some (u "fever "), Some (u " sốt "), Some (u "symptom"),
                     decimal 9 1))
    by (vm_compute; reflexivity).
  assert (Hafter : Forall (fun r' => ~ writes (normalize (u "fever ")) r')
                          [csv_row "flu" "cúm" "disease" "0.8"]).
  { constructor; [|constructor].
    intros (E & V & c & x & Hargs & HE).
    vm_compute in Hargs. injection Hargs as <- _ _ _.
    vm_compute in HE. discriminate HE. }
  destruct (import_csv_last_row_wins _ _ _ (u "import") fever_only _ _ _ _
              Hread Hr Hafter)
    as [(t & Hget & Hv & _ & Hc & _) _].
  exists t. split; [exact Hget|]. split; [exact Hv|exact Hc].
Defined.

(** X6 at the example of the spec. *)
Lemma validate_translation_outcomes_run :
  exists r,
    validate_translation (u "fever") (u "sot") (terms sample) = Ok r
    /\ (valid r = true <-> issues r = [])
    /\ (valid r = true <-> confidence r = of_int 1).
Proof.
  destruct (validate_returns (u "fever") (u "sot") (terms sample)
              sample_keys_normalized) as [r Hr].
  exists r. split; [exact Hr|].
  destruct (validate_translation_outcomes _ _ _ _ Hr) as (H1 & H2 & _).
  split; [exact H1|exact H2].
Defined.

(** X7 for a term added to the store with one term. *)
Lemma validate_after_add_term_run :
  exists r,
    validate_translation (u " Flu ") (u "cúm")
      (terms (snd (add_term (Some (u " Flu ")) (Some (u "cúm"))
                     (Some (u "disease")) (u "manual") (of_int 1) fever_only)))
    = Ok r
    /\ valid r = true.
Proof.
  assert (Hk : keys_normalized (terms fever_only))
    by (apply keys_normalizedb_ok; vm_compute; reflexivity).
  destruct (validate_after_add_term fever_only (u " Flu ") (u "cúm")
              (Some (u "disease")) (u "manual") (of_int 1) Hk
              (CPythonFacts.normalize_latin_idem (u " Flu ")))
    as [_ Hv].
  destruct Hv as (r & Hr & Hvalid & _); [vm_compute; reflexivity|].
  exists r. split; [exact Hr|exact Hvalid].
Defined.

(** X8 at the query of the spec: a header and two related terms. *)
Lemma suggest_improvements_shape_run :
  exists l,
    suggest_improvements (u "hadache") (u "đau đầu") (terms sample) = Ok l
    /\ List.length l = 3.
Proof.
  destruct (suggest_improvements_shape (u "hadache") (u "đau đầu")
              (terms sample) sample_keys_normalized)
    as (l & Hl & Hlen & _).
  exists l. split; [exact Hl|]. rewrite Hlen. vm_compute. reflexivity.
Defined.

(** X9 for the stored ["sốt"] and the proposal ["SỐT"]. *)
Lemma case_only_difference_run :
  exists r l,
    validate_translation (u "fever") (u "SỐT") (terms sample) = Ok r
    /\ suggestions r = []
    /\ suggest_improvements (u "fever") (u "SỐT") (terms sample) = Ok l
    /\ hd_error l
       = Some (u "Consider using established translation: " ++ u "sốt").
Proof.
  set (t := fresh_term (u "sốt") (Some (u "symptom")) (u "manual")
              (decimal 9 1) 9).
  assert (Hget : get_translation (u "fever") (terms sample) = Some t)
    by (vm_compute; reflexivity).
  assert (Hlow : lower (vietnamese t) = lower (u "SỐT"))
    by (vm_compute; reflexivity).
  assert (Hne : vietnamese t <> u "SỐT")
    by (apply eqb_neq; vm_compute; reflexivity).
  destruct (case_only_difference (u "fever") (u "SỐT") (terms sample) t
              sample_keys_normalized Hget Hlow Hne)
    as (r & l & Hr & Hs & _ & Hl & Hhd).
  exists r, l. split; [exact Hr|]. split; [exact Hs|].
  split; [exact Hl|]. rewrite Hhd. vm_compute. reflexivity.
Defined.

(** X10 at the store of the examples. *)
Lemma similar_terms_distinct_run :
  reachable sample
  /\ NoDup (map fst (get_similar_terms (u "hadache") 5 (terms sample))).
Proof.
  split; [exact sample_reachable|].
  exact (proj2 (similar_terms_distinct sample sample_reachable)
           (u "hadache") 5%Z).
Defined.

Lemma sample_read_back : read_back (export_csv (terms sample)) sample_rows.
Proof.
  rewrite export_csv_lines. unfold read_back.
  assert (E : terms sample
              = [(u "headache", fresh_term (u "đau đầu") (Some (u "symptom"))
                                   (u "manual") (of_int 1) 0);
                 (u "heartache", fresh_term (u "đau tim") (Some (u "symptom"))
                                    (u "manual") (of_int 1) 3);
                 (u "stomach", fresh_term (u "dạ dày") (Some (u "anatomy"))
                                  (u "manual") (of_int 1) 6);
                 (u "fever", fresh_term (u "sốt") (Some (u "symptom"))
                                (u "manual") (decimal 9 1) 9)])
    by (vm_compute; reflexivity).
  rewrite E. unfold sample_rows, exported_row, row_of, header, line.
  simpl map. simpl combine.
  repeat (constructor;
          [split;
           [repeat (constructor;
                    [split; [vm_compute; reflexivity
                            |eexists; split; [reflexivity
                                             |vm_compute; reflexivity]]|]);
            constructor
           |reflexivity]|]).
  constructor.
Qed.

(** X11 at the store of the examples. *)
Lemma export_import_round_trip_run :
  read_back (export_csv (terms sample)) sample_rows
  /\ keys (terms (snd (import_csv sample_rows (u "import") empty)))
     = keys (terms sample).
Proof.
  split; [exact sample_read_back|].
  exact (proj1 (export_import_round_trip sample sample_rows (u "import") 0
                  sample_reachable CPythonFacts.normalize_latin_idem
                  sample_read_back)).
Defined.

(** The file read back after an export gives the store again, one entry
    per history. *)
Example reimport_of_sample :
  map (fun kt : str * Term =>
         (fst kt, vietnamese (snd kt), List.length (versions (snd kt))))
      (terms (snd (import_csv sample_rows (u "import") empty)))
  = [(u "headache", u "đau đầu", 1); (u "heartache", u "đau tim", 1);
     (u "stomach", u "dạ dày", 1); (u "fever", u "sốt", 1)].
Proof. vm_compute. reflexivity. Qed.

End MoreRuns.
